(** * oppsql: query shaping for OMNeT++ result databases

    A shallow embedding of [oppsql/__init__.py] (the normalizer nested in
    [get_vector], the statement that [get_vector] builds, its evaluation
    over a relational store, the post-processing of the resulting frame,
    [get_unique_param] and [_ignore_decimal_warning]) together with the
    properties the specification states about them. *)

From Stdlib Require Import List String Ascii Bool ZArith QArith Lia.
From Stdlib Require Import DecimalString.
Import ListNotations.
Open Scope string_scope.
Open Scope Z_scope.

Set Warnings "-register-all".

(** ** Python values and exceptions *)

(** The Python objects that can reach the functions of the module as
    arguments.  A [float] is carried as an exact rational: no property
    below depends on binary rounding. *)
Inductive pyval : Type :=
| PNone
| PBool (b : bool)
| PInt (z : Z)
| PFloat (q : Q)
| PStr (s : string)
| PList (items : list pyval)
| PTuple (items : list pyval)
| PDict (items : list (pyval * pyval)).

(** [type(x)] *)
Inductive pytype : Type :=
| TNoneType | TBool | TInt | TFloat | TStr | TList | TTuple | TDict.

Definition type_of (v : pyval) : pytype :=
  match v with
  | PNone => TNoneType
  | PBool _ => TBool
  | PInt _ => TInt
  | PFloat _ => TFloat
  | PStr _ => TStr
  | PList _ => TList
  | PTuple _ => TTuple
  | PDict _ => TDict
  end.

Definition pytype_eqb (a b : pytype) : bool :=
  match a, b with
  | TNoneType, TNoneType | TBool, TBool | TInt, TInt | TFloat, TFloat
  | TStr, TStr | TList, TList | TTuple, TTuple | TDict, TDict => true
  | _, _ => false
  end.

(** [t in types] for a tuple of types *)
Definition type_in (t : pytype) (types : list pytype) : bool :=
  existsb (pytype_eqb t) types.

Inductive exn : Type :=
| TypeError (msg : string)
| KeyError (key : string)
| IndexError (msg : string)
| ValueError (msg : string)
| InterfaceError (msg : string)
| OverflowError (msg : string).

(** A computation that returns a value or raises. *)
Inductive result (A : Type) : Type :=
| Ok (a : A)
| Raise (e : exn).
Arguments Ok {A} a.
Arguments Raise {A} e.

Definition bind {A B : Type} (m : result A) (k : A -> result B) : result B :=
  match m with
  | Ok a => k a
  | Raise e => Raise e
  end.

Notation "x <- m ;; k" := (bind m (fun x => k))
  (at level 61, m at next level, right associativity).

(** ** Insertion-ordered dictionaries with string keys

    The normalized [by] is a [dict] from attribute names to filter lists;
    the order of its keys is the order of the result's columns, so it is an
    association list with unique keys in insertion order. *)
Definition dict (V : Type) : Type := list (string * V).

Definition keys {V : Type} (d : dict V) : list string := map fst d.

(** [d[k] = v]: an existing key keeps its position, a new key goes last. *)
Fixpoint dict_set {V : Type} (d : dict V) (k : string) (v : V) : dict V :=
  match d with
  | [] => [(k, v)]
  | (k', v') :: d' =>
      if String.eqb k' k then (k', v) :: d' else (k', v') :: dict_set d' k v
  end.

(** [d[k]], raising [KeyError] on a missing key *)
Fixpoint dict_getitem {V : Type} (d : dict V) (k : string) : result V :=
  match d with
  | [] => Raise (KeyError k)
  | (k', v) :: d' => if String.eqb k' k then Ok v else dict_getitem d' k
  end.

(** ** The specification normalizer (nested functions of [get_vector]) *)

Definition valid_types : list pytype := [TInt; TFloat; TBool; TStr].

Definition filter_error : exn :=
  TypeError "Filter must be string, int, float or bool, a list of these or None".

Definition by_error : exn :=
  TypeError "By must be string, list of strings or dictionary".

Definition normalize_filter (filter_ : pyval) : result (list pyval) :=
  match filter_ with
  | PNone => Ok []
  | _ =>
      if type_in (type_of filter_) valid_types then Ok [filter_]
      else
        match filter_ with
        | PList vals =>
            if forallb (fun val => type_in (type_of val) valid_types) vals
            then Ok vals
            else Raise filter_error
        | _ => Raise filter_error
        end
  end.

(** [all(type(attr) == str for attr in xs)], with the strings when it holds *)
Fixpoint all_str (xs : list pyval) : option (list string) :=
  match xs with
  | [] => Some []
  | PStr s :: xs' =>
      match all_str xs' with
      | Some names => Some (s :: names)
      | None => None
      end
  | _ :: _ => None
  end.

(** [{attr: [] for attr in by}] *)
Definition unconstrained (names : list string) : dict (list pyval) :=
  fold_left (fun d attr => dict_set d attr []) names [].

(** [{attr: normalize_filter(filter_) for attr, filter_ in by.items()}]:
    the items are visited in order and the first bad filter raises. *)
Fixpoint normalize_items (acc : dict (list pyval))
    (items : list (string * pyval)) : result (dict (list pyval)) :=
  match items with
  | [] => Ok acc
  | (attr, filter_) :: rest =>
      vals <- normalize_filter filter_ ;;
      normalize_items (dict_set acc attr vals) rest
  end.

Definition normalize_by (by_ : pyval) : result (dict (list pyval)) :=
  match by_ with
  | PStr name => Ok (dict_set [] name [])
  | PList attrs =>
      match all_str attrs with
      | Some names => Ok (unconstrained names)
      | None => Raise by_error
      end
  | PDict items =>
      match all_str (map fst items) with
      | Some names => normalize_items [] (combine names (map snd items))
      | None => Raise by_error
      end
  | _ => Raise by_error
  end.

Definition normalize_variable (variable : pyval) : pyval :=
  match variable with
  | PStr _ => PList [variable]
  | _ => variable
  end.

(** *** The shapes the normalizer is documented to accept *)

Definition is_str (v : pyval) : bool :=
  match v with
  | PStr _ => true
  | _ => false
  end.

Definition is_scalar (v : pyval) : bool :=
  match v with
  | PInt _ | PFloat _ | PBool _ | PStr _ => true
  | _ => false
  end.

(** [None], a scalar, or a list of scalars *)
Definition accepted_filter (filter_ : pyval) : bool :=
  match filter_ with
  | PNone => true
  | PList vals => forallb is_scalar vals
  | _ => is_scalar filter_
  end.

(** A string, a list of strings, or a dictionary from strings to accepted
    filters *)
Definition accepted_by (by_ : pyval) : bool :=
  match by_ with
  | PStr _ => true
  | PList attrs => forallb is_str attrs
  | PDict items =>
      forallb (fun kv => is_str (fst kv)) items
      && forallb (fun kv => accepted_filter (snd kv)) items
  | _ => false
  end.

(** ** The process-wide warning filters

    [warnings.filters] is a list of entries, the first matching entry wins.
    An entry holds the action, the message pattern (compiled with
    [re.IGNORECASE], [None] for an empty pattern), the category, the module
    pattern and the line number. *)
Record warning_filter : Type := {
  wf_action : string;
  wf_message : option string;
  wf_category : string;
  wf_module : option string;
  wf_lineno : Z
}.

Definition option_string_eqb (a b : option string) : bool :=
  match a, b with
  | Some x, Some y => String.eqb x y
  | None, None => true
  | _, _ => false
  end.

Definition warning_filter_eqb (a b : warning_filter) : bool :=
  String.eqb (wf_action a) (wf_action b)
  && option_string_eqb (wf_message a) (wf_message b)
  && String.eqb (wf_category a) (wf_category b)
  && option_string_eqb (wf_module a) (wf_module b)
  && Z.eqb (wf_lineno a) (wf_lineno b).

(** [filters.remove(item)], ignoring the [ValueError] of a missing item *)
Fixpoint remove_first (item : warning_filter) (filters : list warning_filter)
    : list warning_filter :=
  match filters with
  | [] => []
  | f :: rest =>
      if warning_filter_eqb f item then rest else f :: remove_first item rest
  end.

Definition compile_pattern (pattern : string) : option string :=
  match pattern with
  | EmptyString => None
  | _ => Some pattern
  end.

(** [warnings.filterwarnings] of the Python 3 standard library: an equal
    entry is removed before the new one is put in front; with [append] an
    entry that is already there is not added again. *)
Definition filterwarnings (filters : list warning_filter)
    (action message category module : string) (lineno : Z) (append : bool)
    : list warning_filter :=
  let item := {| wf_action := action;
                 wf_message := compile_pattern message;
                 wf_category := category;
                 wf_module := compile_pattern module;
                 wf_lineno := lineno |} in
  if append then
    if existsb (fun f => warning_filter_eqb f item) filters
    then filters else filters ++ [item]
  else item :: remove_first item filters.

Definition decimal_warning_regex : string :=
  "^Dialect sqlite\+pysqlite does \*not\* support Decimal objects natively\, "
  ++ "and SQLAlchemy must convert from floating point - rounding errors and other "
  ++ "issues may occur\. Please consider storing Decimal numbers as strings or "
  ++ "integers on this platform for lossless storage\.$".

Definition _ignore_decimal_warning (filters : list warning_filter)
    : list warning_filter :=
  filterwarnings filters "ignore" decimal_warning_regex
    "sqlalchemy.exc.SAWarning" "^sqlalchemy\.sql\.sqltypes$" 0 false.

(** ** The relational store *)

(** Modelled from the spec: the table catalog of the module [model], which
    is imported as [m] and is not part of the sources.  The columns are the
    ones the code reads ([m.run.c.simtimeExp], [m.runattr.c.attrValue], ...)
    and the ones the spec's catalog lists for the joins: Run(run id, simtime
    exponent), RunAttribute(run id, row id, name, value), RunParameter(name,
    value), Vector(run id, module name, vector name), VectorSample(vector
    ref, raw timestamp, value).  Attribute and parameter values are text. *)
Record run_row : Type := {
  run_runId : Z;
  run_simtimeExp : Z
}.

Record runattr_row : Type := {
  ra_runId : Z;
  ra_dbId : Z;
  ra_attrName : string;
  ra_attrValue : string
}.

Record runparam_row : Type := {
  rp_parName : string;
  rp_parValue : string
}.

Record vector_row : Type := {
  vec_vectorId : Z;
  vec_runId : Z;
  vec_moduleName : string;
  vec_vectorName : string
}.

Record vectordata_row : Type := {
  vd_vectorId : Z;
  vd_simtimeRaw : Z;
  vd_value : Q
}.

Record database : Type := {
  tbl_run : list run_row;
  tbl_runattr : list runattr_row;
  tbl_runparam : list runparam_row;
  tbl_vector : list vector_row;
  tbl_vectordata : list vectordata_row
}.

(** *** [LIKE] as SQLite evaluates it

    [%] matches any sequence of characters, [_] any single character, and
    every other character matches itself without regard to ASCII case. *)
Definition ascii_lower (c : ascii) : ascii :=
  let n := nat_of_ascii c in
  if ((65 <=? n) && (n <=? 90))%nat then ascii_of_nat (n + 32) else c.

Definition like_char (p c : ascii) : bool :=
  Ascii.eqb p "_" || Ascii.eqb (ascii_lower p) (ascii_lower c).

Fixpoint like (pattern s : string) : bool :=
  match pattern with
  | EmptyString =>
      match s with
      | EmptyString => true
      | String _ _ => false
      end
  | String p pattern' =>
      if Ascii.eqb p "%" then
        (fix skip (t : string) : bool :=
           like pattern' t
           || match t with
              | EmptyString => false
              | String _ t' => skip t'
              end) s
      else
        match s with
        | EmptyString => false
        | String c s' => like_char p c && like pattern' s'
        end
  end.

(** [SELECT DISTINCT]: every value once, at its first occurrence *)
Fixpoint distinct_from (seen values : list string) : list string :=
  match values with
  | [] => []
  | v :: rest =>
      if existsb (String.eqb v) seen then distinct_from seen rest
      else v :: distinct_from (v :: seen) rest
  end.

Definition distinct (values : list string) : list string :=
  distinct_from [] values.

(** [ResultProxy.scalar()]: the first column of the first row, [None] when
    there is no row; further rows are not looked at. *)
Definition scalar (rows : list string) : pyval :=
  match rows with
  | [] => PNone
  | v :: _ => PStr v
  end.

(** The rows of [select([runparam.c.parValue]).where(parName.like(pattern))
    .distinct()] *)
Definition select_distinct_parValue (con : database) (pattern : string)
    : list string :=
  distinct (map rp_parValue
              (filter (fun r => like pattern (rp_parName r))
                      (tbl_runparam con))).

(** ** [get_unique_param]

    [type] is the caller's conversion, a callable applied to the scalar. *)
Definition get_unique_param (con : database) (name : string)
    (type : pyval -> result pyval) : result pyval :=
  type (scalar (select_distinct_parValue con ("%" ++ name))).

(** [bool(x)] *)
Definition py_bool (x : pyval) : result pyval :=
  Ok (PBool
        match x with
        | PNone => false
        | PBool b => b
        | PInt z => negb (z =? 0)
        | PFloat q => negb (Qeq_bool q 0)
        | PStr s => negb (String.eqb s "")
        | PList items | PTuple items => negb (Nat.eqb (List.length items) 0)
        | PDict items => negb (Nat.eqb (List.length items) 0)
        end).

(** ** Result frames *)

Inductive cell : Type :=
| CNull
| CText (s : string)
| CInt (z : Z)
| CReal (q : Q)
| CBool (b : bool).

Inductive dtype : Type :=
| Inferred
| Categorical (categories : list pyval) (ordered : bool)
| Native (t : pytype)
| Object.

(** A column of a [pandas.DataFrame] *)
Record series : Type := {
  s_name : string;
  s_dtype : dtype;
  s_cells : list cell
}.

Definition dataframe : Type := list series.

Definition columns (df : dataframe) : list string := map s_name df.

(** ** Statements *)

(** An SQL aggregate function such as [sqa.func.avg]: its name and what it
    computes from the values of a group. *)
Record aggregate_fn : Type := {
  agg_name : string;
  agg_apply : list Q -> cell
}.

(** A row of [run JOIN vector JOIN vectordata JOIN <attribute subqueries>];
    [jr_attrs] holds the [attrValue] of each joined subquery under the
    attribute the subquery was built for. *)
Record joined_row : Type := {
  jr_run : run_row;
  jr_vector : vector_row;
  jr_data : vectordata_row;
  jr_attrs : dict string
}.

(** The entries [get_vector] puts on its [select] list *)
Inductive column_expr : Type :=
| AttrValue (attribute : string)
| Simtime
| ModuleName
| VectorName
| Value
| Aggregated (f : aggregate_fn).

(** The name of a column in the result set: its label, or the name under
    which the code reaches the column in the catalog ([m.vector.c.moduleName],
    [m.vector.c.vectorName], [m.vectordata.c.value]), or SQLAlchemy's
    anonymous label for a function call. *)
Definition label (c : column_expr) : string :=
  match c with
  | AttrValue attribute => attribute
  | Simtime => "simtime"
  | ModuleName => "moduleName"
  | VectorName => "vectorName"
  | Value => "value"
  | Aggregated f => agg_name f ++ "_1"
  end.

(** [and_(runattr.c.attrName == af_attrName, runattr.c.attrValue.in_(vals))],
    with [None] where the second conjunct is [True] *)
Record attr_filter : Type := {
  af_attrName : string;
  af_values : option (list pyval)
}.

Inductive constraint : Type :=
| Custom (p : joined_row -> bool)
| VectorNameIn (names : list pyval).

Record statement : Type := {
  stmt_select : list column_expr;
  stmt_from : dict attr_filter;
  stmt_where : list constraint;
  stmt_group_by : list string
}.

Definition _map_python_value (val : pyval) : pyval :=
  match val with
  | PBool b => PStr (if b then "true" else "false")
  | _ => val
  end.

Definition single_filter (by_ : dict (list pyval)) (attribute : string)
    : result bool :=
  vals <- dict_getitem by_ attribute ;;
  Ok (Nat.eqb (List.length vals) 1).

Definition attribute_filter_expression (by_ : dict (list pyval))
    (attribute : string) : result attr_filter :=
  vals <- dict_getitem by_ attribute ;;
  Ok {| af_attrName := attribute;
        af_values := match vals with
                     | [] => None
                     | _ :: _ => Some (map _map_python_value vals)
                     end |}.

(** [{attribute: select(...).where(...).alias() for attribute in by}]; the
    keys of a dictionary are distinct, so every attribute adds an entry. *)
Fixpoint attribute_subqueries (by_ : dict (list pyval))
    (attributes : list string) : result (dict attr_filter) :=
  match attributes with
  | [] => Ok []
  | attribute :: rest =>
      e <- attribute_filter_expression by_ attribute ;;
      queries <- attribute_subqueries by_ rest ;;
      Ok ((attribute, e) :: queries)
  end.

(** The generator of lines 261 to 263 *)
Fixpoint select_attributes (by_ : dict (list pyval))
    (queries : dict attr_filter) (self_descriptive_result : bool)
    : result (list column_expr) :=
  match queries with
  | [] => Ok []
  | (attribute, _) :: rest =>
      vals <- dict_getitem by_ attribute ;;
      cols <- select_attributes by_ rest self_descriptive_result ;;
      Ok (if negb (Nat.eqb (List.length vals) 1
                   && negb self_descriptive_result)
          then AttrValue attribute :: cols else cols)
  end.

(** The generator of lines 289 to 291 *)
Fixpoint group_by_attributes (by_ : dict (list pyval))
    (queries : dict attr_filter) : result (list string) :=
  match queries with
  | [] => Ok []
  | (attribute, _) :: rest =>
      single <- single_filter by_ attribute ;;
      cols <- group_by_attributes by_ rest ;;
      Ok (if negb single then attribute :: cols else cols)
  end.

Definition type_name (t : pytype) : string :=
  match t with
  | TNoneType => "NoneType" | TBool => "bool" | TInt => "int"
  | TFloat => "float" | TStr => "str" | TList => "list"
  | TTuple => "tuple" | TDict => "dict"
  end.

(** [len(x)] *)
Definition py_len (x : pyval) : result nat :=
  match x with
  | PStr s => Ok (String.length s)
  | PList items | PTuple items => Ok (List.length items)
  | PDict items => Ok (List.length items)
  | _ => Raise (TypeError ("object of type '" ++ type_name (type_of x)
                           ++ "' has no len()"))
  end.

(** The elements [in_] draws from its argument *)
Definition py_iter (x : pyval) : result (list pyval) :=
  match x with
  | PStr s => Ok (map (fun c => PStr (String c EmptyString))
                    (list_ascii_of_string s))
  | PList items | PTuple items => Ok items
  | PDict items => Ok (map fst items)
  | _ => Raise (TypeError ("'" ++ type_name (type_of x)
                           ++ "' object is not iterable"))
  end.

(** The statement [get_vector] hands to [pd.read_sql], from the normalized
    arguments (lines 255 to 291). *)
Definition get_vector_statement (by_ : dict (list pyval)) (variable : pyval)
    (time module : bool) (filter_ : option (joined_row -> bool))
    (aggregate : option aggregate_fn) (self_descriptive_result : bool)
    : result statement :=
  queries <- attribute_subqueries by_ (keys by_) ;;
  attrs <- select_attributes by_ queries self_descriptive_result ;;
  n <- py_len variable ;;
  let select :=
    (attrs
     ++ (if time then [Simtime] else [])
     ++ (if module then [ModuleName] else [])
     ++ (if negb (Nat.eqb n 1 && negb self_descriptive_result)
         then [VectorName] else [])
     ++ [match aggregate with
         | Some f => Aggregated f
         | None => Value
         end])%list in
  names <- py_iter variable ;;
  let constraints :=
    (match filter_ with
     | Some p => [Custom p]
     | None => []
     end ++ [VectorNameIn names])%list in
  group_by <- match aggregate with
              | Some _ => group_by_attributes by_ queries
              | None => Ok []
              end ;;
  Ok {| stmt_select := select;
        stmt_from := queries;
        stmt_where := constraints;
        stmt_group_by := group_by |}.

(** ** Evaluation of a statement and post-processing of the frame *)

Section Collaborators.

(** Two behaviours of the collaborators are left open: the text SQLite
    compares a bound [float] with, and the conversion pandas applies for
    [astype(int)], [astype(float)] and [astype(bool)], which can raise. *)
Variable real_text : Q -> string.
Variable astype_native : pytype -> list cell -> result (list cell).

(** The text a bound parameter is compared as against a [TEXT] column
    ([None] binds as [NULL], which equals nothing). *)
Definition sql_text (v : pyval) : option string :=
  match v with
  | PStr s => Some s
  | PInt z => Some (NilZero.string_of_int (Z.to_int z))
  | PBool b => Some (if b then "1" else "0")
  | PFloat q => Some (real_text q)
  | _ => None
  end.

(** What [sqlite3] raises when it binds the value of a parameter:
    sequences and mappings are not supported, and an [int] is stored as a
    signed integer of 64 bits. *)
Definition bind_error (v : pyval) : option exn :=
  match v with
  | PList _ | PTuple _ | PDict _ =>
      Some (InterfaceError "Error binding parameter")
  | PInt z =>
      if ((- 2 ^ 63 <=? z) && (z <? 2 ^ 63))%Z then None
      else Some (OverflowError
                   "Python int too large to convert to SQLite INTEGER")
  | _ => None
  end.

Definition bindable (v : pyval) : bool :=
  match bind_error v with
  | None => true
  | Some _ => false
  end.

(** The parameters are bound in the order of the statement; the first one
    that cannot be bound raises. *)
Fixpoint bind_failure (params : list pyval) : exn :=
  match params with
  | [] => InterfaceError "Error binding parameter"
  | v :: rest =>
      match bind_error v with
      | Some e => e
      | None => bind_failure rest
      end
  end.

(** [column.in_(vals)] on a text column *)
Definition in_ (column_value : string) (vals : list pyval) : bool :=
  existsb (fun v => match sql_text v with
                    | Some t => String.eqb column_value t
                    | None => false
                    end) vals.

Definition subquery_rows (db : database) (q : attr_filter)
    : list runattr_row :=
  filter (fun a => String.eqb (ra_attrName a) (af_attrName q)
                   && match af_values q with
                      | Some vals => in_ (ra_attrValue a) vals
                      | None => true
                      end)
         (tbl_runattr db).

(** Modelled from the spec: the join conditions, which SQLAlchemy takes
    from the foreign keys declared in the module [model]: samples belong to
    a vector, vectors to a run, and each attribute subquery is joined on the
    run id. *)
Definition base_rows (db : database) : list joined_row :=
  flat_map (fun r =>
    flat_map (fun v =>
      if vec_runId v =? run_runId r then
        map (fun d => {| jr_run := r; jr_vector := v; jr_data := d;
                         jr_attrs := [] |})
            (filter (fun d => vd_vectorId d =? vec_vectorId v)
                    (tbl_vectordata db))
      else [])
      (tbl_vector db))
    (tbl_run db).

Definition join_subquery (db : database) (rows : list joined_row)
    (entry : string * attr_filter) : list joined_row :=
  flat_map (fun row =>
    map (fun a => {| jr_run := jr_run row; jr_vector := jr_vector row;
                     jr_data := jr_data row;
                     jr_attrs := (jr_attrs row
                                  ++ [(fst entry, ra_attrValue a)])%list |})
        (filter (fun a => ra_runId a =? run_runId (jr_run row))
                (subquery_rows db (snd entry))))
    rows.

Definition holds (c : constraint) (row : joined_row) : bool :=
  match c with
  | Custom p => p row
  | VectorNameIn names => in_ (vec_vectorName (jr_vector row)) names
  end.

(** The rows of [select_from(tables).where(and_( *constraints))] *)
Definition selected_rows (stmt : statement) (db : database)
    : list joined_row :=
  filter (fun row => forallb (fun c => holds c row) (stmt_where stmt))
         (fold_left (join_subquery db) (stmt_from stmt) (base_rows db)).

(** [simtime(simtime_raw, simtime_exponent)] *)
Definition simtime (simtime_raw simtime_exponent : Z) : Q :=
  (inject_Z simtime_raw * Qpower (inject_Z 10) simtime_exponent)%Q.

Definition eval_column (c : column_expr) (row : joined_row) : cell :=
  match c with
  | AttrValue attribute =>
      match dict_getitem (jr_attrs row) attribute with
      | Ok v => CText v
      | Raise _ => CNull
      end
  | Simtime => CReal (simtime (vd_simtimeRaw (jr_data row))
                              (run_simtimeExp (jr_run row)))
  | ModuleName => CText (vec_moduleName (jr_vector row))
  | VectorName => CText (vec_vectorName (jr_vector row))
  | Value => CReal (vd_value (jr_data row))
  | Aggregated f => agg_apply f [vd_value (jr_data row)]
  end.

Definition is_aggregated (c : column_expr) : bool :=
  match c with
  | Aggregated _ => true
  | _ => false
  end.

Definition group_key (group_by : list string) (row : joined_row)
    : list cell :=
  map (fun attribute => eval_column (AttrValue attribute) row) group_by.

Definition cell_text_eqb (a b : cell) : bool :=
  match a, b with
  | CText x, CText y => String.eqb x y
  | CNull, CNull => true
  | _, _ => false
  end.

Fixpoint key_eqb (a b : list cell) : bool :=
  match a, b with
  | [], [] => true
  | x :: a', y :: b' => cell_text_eqb x y && key_eqb a' b'
  | _, _ => false
  end.

Fixpoint add_to_group (key : list cell) (row : joined_row)
    (groups : list (list cell * list joined_row))
    : list (list cell * list joined_row) :=
  match groups with
  | [] => [(key, [row])]
  | (k, g) :: rest =>
      if key_eqb k key then (k, (g ++ [row])%list) :: rest
      else (k, g) :: add_to_group key row rest
  end.

(** The groups of an aggregating statement, in the order in which their
    keys first occur; without [GROUP BY] columns all rows form one group,
    also when there is no row. *)
Definition groups_of (group_by : list string) (rows : list joined_row)
    : list (list joined_row) :=
  match group_by with
  | [] => [rows]
  | _ :: _ =>
      map snd (fold_left (fun gs row =>
                            add_to_group (group_key group_by row) row gs)
                         rows [])
  end.

(** Attribute values are text, or missing. *)
Definition text_cell (c : cell) : Prop :=
  match c with
  | CNull | CText _ => True
  | _ => False
  end.

(** What holds of the groups while they are collected: the keys are
    distinct, and every group is a non-empty list of rows of its key. *)
Definition groups_ok (group_by : list string)
    (groups : list (list cell * list joined_row)) : Prop :=
  NoDup (map fst groups)
  /\ Forall (fun kg => Forall text_cell (fst kg)
                       /\ snd kg <> []
                       /\ Forall (fun row => group_key group_by row = fst kg)
                                 (snd kg))
            groups.

(** A column that is not aggregated takes its value from a row of the
    group. *)
Definition eval_group (c : column_expr) (g : list joined_row) : cell :=
  match c with
  | Aggregated f => agg_apply f (map (fun row => vd_value (jr_data row)) g)
  | _ =>
      match g with
      | [] => CNull
      | row :: _ => eval_column c row
      end
  end.

Definition statement_params (stmt : statement) : list pyval :=
  (flat_map (fun entry => match af_values (snd entry) with
                          | Some vals => vals
                          | None => []
                          end) (stmt_from stmt)
   ++ flat_map (fun c => match c with
                         | VectorNameIn names => names
                         | Custom _ => []
                         end) (stmt_where stmt))%list.

(** [pd.read_sql(stmt, conn)]: one series per entry of the select list,
    named by its label, one cell per row of the result set. *)
Definition read_sql (stmt : statement) (db : database) : result dataframe :=
  if forallb bindable (statement_params stmt) then
    let rows := selected_rows stmt db in
    Ok (map (fun c =>
               {| s_name := label c;
                  s_dtype := Inferred;
                  s_cells :=
                    if existsb is_aggregated (stmt_select stmt)
                    then map (eval_group c)
                             (groups_of (stmt_group_by stmt) rows)
                    else map (eval_column c) rows |})
            (stmt_select stmt))
  else Raise (bind_failure (statement_params stmt)).

(** *** Post-processing (lines 298 to 300) *)

Definition py_num (v : pyval) : option Q :=
  match v with
  | PBool b => Some (if b then 1%Q else 0%Q)
  | PInt z => Some (inject_Z z)
  | PFloat q => Some q
  | _ => None
  end.

(** [a == b] on scalars *)
Definition py_eqb (a b : pyval) : bool :=
  match a, b with
  | PStr x, PStr y => String.eqb x y
  | PNone, PNone => true
  | _, _ =>
      match py_num a, py_num b with
      | Some x, Some y => Qeq_bool x y
      | _, _ => false
      end
  end.

Definition cell_value (c : cell) : pyval :=
  match c with
  | CNull => PNone
  | CText s => PStr s
  | CInt z => PInt z
  | CReal q => PFloat q
  | CBool b => PBool b
  end.

Fixpoint py_unique (vals : list pyval) : bool :=
  match vals with
  | [] => true
  | v :: rest => negb (existsb (py_eqb v) rest) && py_unique rest
  end.

(** [pd.api.types.CategoricalDtype(categories, ordered)] *)
Definition CategoricalDtype (categories : list pyval) (ordered : bool)
    : result dtype :=
  if py_unique categories then Ok (Categorical categories ordered)
  else Raise (ValueError "Categorical categories must be unique").

(** [Series.astype(dt)]: a value outside the categories becomes missing. *)
Definition astype (dt : dtype) (s : series) : result series :=
  match dt with
  | Inferred => Ok s
  | Categorical categories _ =>
      Ok {| s_name := s_name s;
            s_dtype := dt;
            s_cells := map (fun c =>
                              if existsb (py_eqb (cell_value c)) categories
                              then c else CNull) (s_cells s) |}
  | Native t =>
      cells <- astype_native t (s_cells s) ;;
      Ok {| s_name := s_name s; s_dtype := dt; s_cells := cells |}
  | Object => Ok {| s_name := s_name s; s_dtype := dt; s_cells := s_cells s |}
  end.

(** [df[key]]: the columns of that name, [KeyError] when there is none *)
Definition df_getitem (df : dataframe) (key : string)
    : result (list series) :=
  match filter (fun s => String.eqb (s_name s) key) df with
  | [] => Raise (KeyError key)
  | cols => Ok cols
  end.

(** The dtype the columns named [key] have after
    [df[key] = df[key].astype(dt)].  Where several columns carry the name,
    [df[key]] is a frame and its conversion is assigned as one array of
    two dimensions: converted to a categorical type, the columns keep the
    values of the conversion and come back with the dtype [object]. *)
Definition stored_dtype (df : dataframe) (key : string) (dt : dtype)
    : dtype :=
  match dt with
  | Categorical _ _ =>
      if Nat.ltb 1 (List.length
                      (filter (fun s => String.eqb (s_name s) key) df))
      then Object else dt
  | _ => dt
  end.

Definition with_dtype (dt : dtype) (s : series) : series :=
  {| s_name := s_name s; s_dtype := dt; s_cells := s_cells s |}.

Fixpoint assign_columns (stored : dtype) (df : dataframe) (key : string)
    (dt : dtype) : result dataframe :=
  match df with
  | [] => Ok []
  | s :: rest =>
      s' <- (if String.eqb (s_name s) key
             then (c <- astype dt s ;; Ok (with_dtype stored c))
             else Ok s) ;;
      rest' <- assign_columns stored rest key dt ;;
      Ok (s' :: rest')
  end.

(** [df[key] = df[key].astype(dt)]: every column of that name is replaced
    by its conversion, in place. *)
Definition assign_astype (df : dataframe) (key : string) (dt : dtype)
    : result dataframe :=
  assign_columns (stored_dtype df key dt) df key dt.

(** [l[i]] *)
Definition list_getitem {A : Type} (l : list A) (i : nat) : result A :=
  match nth_error l i with
  | Some x => Ok x
  | None => Raise (IndexError "list index out of range")
  end.

(** The body of the loop: [df[attr]] is evaluated first, then the
    condition [type(vals[0]) == str], then the chosen type. *)
Definition cast_attribute (df : dataframe) (attr : string)
    (vals : list pyval) : result dataframe :=
  _ <- df_getitem df attr ;;
  first <- list_getitem vals 0 ;;
  dt <- (if pytype_eqb (type_of first) TStr
         then CategoricalDtype vals true
         else Ok (Native (type_of first))) ;;
  assign_astype df attr dt.

Fixpoint cast_attributes (df : dataframe)
    (items : list (string * list pyval)) : result dataframe :=
  match items with
  | [] => Ok df
  | (attr, vals) :: rest =>
      df' <- cast_attribute df attr vals ;;
      cast_attributes df' rest
  end.

(** ** [get_vector]

    The call threads the process's warning filters and returns the frame
    or raises.  [run] is accepted and not used, as in the source. *)
Definition get_vector (filters : list warning_filter) (engine : database)
    (by_ variable : pyval) (time run module : bool)
    (filter_ : option (joined_row -> bool))
    (aggregate : option aggregate_fn) (self_descriptive_result : bool)
    : list warning_filter * result dataframe :=
  (_ignore_decimal_warning filters,
   by' <- normalize_by by_ ;;
   let variable' := normalize_variable variable in
   stmt <- get_vector_statement by' variable' time module filter_ aggregate
             self_descriptive_result ;;
   df <- read_sql stmt engine ;;
   cast_attributes df by').

End Collaborators.

(** ** Values as the database stores them, and [get_iterationvars] *)

(** The result of [_map_database_value]: a [bool], an [int], a [float],
    or the string itself.  A [float] is denoted by the text it was parsed
    from. *)
Inductive mapped_val : Type :=
| MBool (b : bool)
| MInt (z : Z)
| MFloat (literal : string)
| MStr (s : string).

(** The exceptions of [get_iterationvars]: those above and the
    [AttributeError] of [None.groups]. *)
Inductive raised : Type :=
| Exn (e : exn)
| AttributeError (msg : string).

Inductive outcome (A : Type) : Type :=
| Returns (a : A)
| Raises (e : raised).
Arguments Returns {A} a.
Arguments Raises {A} e.

(** [s.split(', ')]: the pieces between the occurrences of the separator,
    found from left to right; never an empty list. *)
Definition push (c : ascii) (parts : list string) : list string :=
  match parts with
  | p :: ps => String c p :: ps
  | [] => [String c EmptyString]
  end.

Fixpoint split_comma_space (s : string) : list string :=
  match s with
  | EmptyString => [EmptyString]
  | String c rest =>
      match rest with
      | String c' rest' =>
          if Ascii.eqb c "," && Ascii.eqb c' " "
          then EmptyString :: split_comma_space rest'
          else push c (split_comma_space rest)
      | EmptyString => push c (split_comma_space rest)
      end
  end.

Section Parsers.

(** Left open: [int(val)] ([None] where it raises [ValueError]), whether
    [float(val)] succeeds, and which characters beyond ASCII the pattern
    [\w] matches. *)
Variable int_of_str : string -> option Z.
Variable float_parses : string -> bool.
Variable word_beyond_ascii : ascii -> bool.

Definition _map_database_value (val : string) : mapped_val :=
  if String.eqb val "true" then MBool true
  else if String.eqb val "false" then MBool false
  else
    match int_of_str val with
    | Some z => MInt z
    | None => if float_parses val then MFloat val else MStr val
    end.

(** [\w]: a letter, a digit or the underscore *)
Definition is_word (c : ascii) : bool :=
  let n := nat_of_ascii c in
  if (n <? 128)%nat then
    ((48 <=? n) && (n <=? 57) || (65 <=? n) && (n <=? 90)
     || (97 <=? n) && (n <=? 122) || (n =? 95))%nat
  else word_beyond_ascii c.

(** The longest prefix of word characters, and what follows it *)
Fixpoint word_prefix (s : string) : string * string :=
  match s with
  | EmptyString => (EmptyString, EmptyString)
  | String c rest =>
      if is_word c then
        let (w, rest') := word_prefix rest in (String c w, rest')
      else (EmptyString, s)
  end.

(** [re.match(r'\$(\w+)=.*', entry)] and its first group.  [=] is no word
    character, so the greedy [\w+] can only be followed by [=] where the
    word characters end; [.*] matches whatever follows. *)
Definition match_iterationvar (entry : string) : option string :=
  match entry with
  | String c rest =>
      if Ascii.eqb c "$" then
        match word_prefix rest with
        | (String w ws, String e _) =>
            if Ascii.eqb e "=" then Some (String w ws) else None
        | _ => None
        end
      else None
  | EmptyString => None
  end.

(** The list comprehension of lines 96 and 97: the first entry that does
    not match raises. *)
Fixpoint iterationvar_names (entries : list string)
    : outcome (list string) :=
  match entries with
  | [] => Returns []
  | entry :: rest =>
      match match_iterationvar entry with
      | None =>
          Raises (AttributeError "'NoneType' object has no attribute 'groups'")
      | Some var =>
          match iterationvar_names rest with
          | Returns vars => Returns (var :: vars)
          | Raises e => Raises e
          end
      end
  end.

(** The rows of [select([runattr.c.attrValue]).where(attrName == name)] *)
Definition attr_values (db : database) (name : string) : list string :=
  map ra_attrValue
      (filter (fun a => String.eqb (ra_attrName a) name) (tbl_runattr db)).

(** The rows of [iterationvar_values_stmt(var)], mapped *)
Definition iterationvar_values (db : database) (var : string)
    : list mapped_val :=
  map _map_database_value (distinct (attr_values db var)).

Definition get_iterationvars (engine : database)
    : outcome (dict (list mapped_val)) :=
  match attr_values engine "iterationvars" with
  | [] => Raises (Exn (TypeError "'NoneType' object is not subscriptable"))
  | first :: _ =>
      match iterationvar_names (split_comma_space first) with
      | Returns vars =>
          Returns (fold_left
                     (fun d var =>
                        dict_set d var (iterationvar_values engine var))
                     vars [])
      | Raises e => Raises e
      end
  end.

End Parsers.

(** [', '.join(entries)] *)
Fixpoint join_comma_space (entries : list string) : string :=
  match entries with
  | [] => EmptyString
  | [entry] => entry
  | entry :: rest => entry ++ ", " ++ join_comma_space rest
  end.

(** Whether [', '] occurs in a string *)
Fixpoint has_comma_space (s : string) : bool :=
  match s with
  | EmptyString => false
  | String c rest =>
      match rest with
      | String c' _ =>
          (Ascii.eqb c "," && Ascii.eqb c' " ") || has_comma_space rest
      | EmptyString => false
      end
  end.

(** The names of the columns that follow the attribute columns (lines 264
    to 274) *)
Definition fixed_columns (time module vector_name : bool)
    (aggregate : option aggregate_fn) : list string :=
  ((if time then ["simtime"] else [])
   ++ (if module then ["moduleName"] else [])
   ++ (if vector_name then ["vectorName"] else [])
   ++ [match aggregate with
       | Some f => label (Aggregated f)
       | None => label Value
       end])%list.

(** The grouping attributes whose column is selected (line 263) *)
Definition kept_attributes (by_ : dict (list pyval))
    (self_descriptive_result : bool) : list string :=
  keys (filter (fun kv => negb (Nat.eqb (List.length (snd kv)) 1
                              && negb self_descriptive_result))
               by_).

(** The entry [_ignore_decimal_warning] installs *)
Definition decimal_warning_filter : warning_filter :=
  {| wf_action := "ignore";
     wf_message := compile_pattern decimal_warning_regex;
     wf_category := "sqlalchemy.exc.SAWarning";
     wf_module := compile_pattern "^sqlalchemy\.sql\.sqltypes$";
     wf_lineno := 0 |}.

(** Whether every character of a string satisfies a test *)
Fixpoint string_forallb (f : ascii -> bool) (s : string) : bool :=
  match s with
  | EmptyString => true
  | String c rest => f c && string_forallb f rest
  end.



(** [$name=value], an entry of the [iterationvars] attribute *)
Definition iterationvar_entry (nv : string * string) : string :=
  "$" ++ fst nv ++ "=" ++ snd nv.

(** ** A store and collaborators for the examples *)

(** [sqa.func.avg]: the mean of the group, [NULL] for an empty group *)
Definition avg : aggregate_fn :=
  {| agg_name := "avg";
     agg_apply := fun values =>
       match values with
       | [] => CNull
       | _ :: _ =>
           CReal (fold_right Qplus 0%Q values
                  / inject_Z (Z.of_nat (List.length values)))%Q
       end |}.

(** Two runs of a sweep over [nCars], each with a [collisions] vector. *)
Definition example_store : database :=
  {| tbl_run :=
       [ {| run_runId := 1; run_simtimeExp := -3 |};
         {| run_runId := 2; run_simtimeExp := -3 |} ];
     tbl_runattr :=
       [ {| ra_runId := 1; ra_dbId := 1;
            ra_attrName := "nCars"; ra_attrValue := "160" |};
         {| ra_runId := 1; ra_dbId := 2;
            ra_attrName := "repetition"; ra_attrValue := "0" |};
         {| ra_runId := 2; ra_dbId := 3;
            ra_attrName := "nCars"; ra_attrValue := "320" |};
         {| ra_runId := 2; ra_dbId := 4;
            ra_attrName := "repetition"; ra_attrValue := "1" |} ];
     tbl_runparam :=
       [ {| rp_parName := "**.penetration"; rp_parValue := "0.5" |};
         {| rp_parName := "**.penetration"; rp_parValue := "0.5" |};
         {| rp_parName := "**.host.sendInterval"; rp_parValue := "1" |};
         {| rp_parName := "**.sendInterval"; rp_parValue := "2" |} ];
     tbl_vector :=
       [ {| vec_vectorId := 10; vec_runId := 1;
            vec_moduleName := "scenario.manager";
            vec_vectorName := "collisions" |};
         {| vec_vectorId := 11; vec_runId := 2;
            vec_moduleName := "scenario.manager";
            vec_vectorName := "collisions" |} ];
     tbl_vectordata :=
       [ {| vd_vectorId := 10; vd_simtimeRaw := 1000; vd_value := 150 |};
         {| vd_vectorId := 10; vd_simtimeRaw := 2000; vd_value := 161 |};
         {| vd_vectorId := 11; vd_simtimeRaw := 1000; vd_value := 484 |} ] |}.

(** The examples bind no [float] and convert no column to a native type,
    so any instance of the two collaborators serves them: this one renders
    a real by its integer part and refuses every native conversion. *)
Definition example_real_text (q : Q) : string :=
  NilZero.string_of_int (Z.to_int (Qnum q / Zpos (Qden q))).

Definition example_astype_native (t : pytype) (cells : list cell)
    : result (list cell) :=
  Raise (ValueError "no native conversion in the examples").

Definition example_get_vector :=
  get_vector example_real_text example_astype_native.

(** A store with an [iterationvars] attribute: two runs of a sweep over
    [nCars] in one [mode]. *)
Definition sweep_store : database :=
  {| tbl_run :=
       [ {| run_runId := 1; run_simtimeExp := -3 |};
         {| run_runId := 2; run_simtimeExp := -3 |} ];
     tbl_runattr :=
       [ {| ra_runId := 1; ra_dbId := 1; ra_attrName := "iterationvars";
            ra_attrValue := "$nCars=160, $mode=fast" |};
         {| ra_runId := 1; ra_dbId := 2;
            ra_attrName := "nCars"; ra_attrValue := "160" |};
         {| ra_runId := 1; ra_dbId := 3;
            ra_attrName := "mode"; ra_attrValue := "fast" |};
         {| ra_runId := 2; ra_dbId := 4; ra_attrName := "iterationvars";
            ra_attrValue := "$nCars=320, $mode=fast" |};
         {| ra_runId := 2; ra_dbId := 5;
            ra_attrName := "nCars"; ra_attrValue := "320" |};
         {| ra_runId := 2; ra_dbId := 6;
            ra_attrName := "mode"; ra_attrValue := "fast" |} ];
     tbl_runparam := [];
     tbl_vector := [];
     tbl_vectordata := [] |}.

(** Instances for the examples of [get_iterationvars], whose values are
    decimal numerals and plain words: [int] on decimal numerals, no value
    that [float] accepts, and no word character beyond ASCII. *)
Definition decimal_int_of_str (s : string) : option Z :=
  option_map Z.of_int (NilZero.int_of_string s).

Definition no_float (s : string) : bool := false.

Definition ascii_words (c : ascii) : bool := false.

(** [astype(int)] on cells that hold decimal numerals; the examples use no
    other native conversion. *)
Fixpoint decimal_cells (cells : list cell) : result (list cell) :=
  match cells with
  | [] => Ok []
  | CText s :: rest =>
      match NilZero.int_of_string s with
      | Some i => converted <- decimal_cells rest ;;
                  Ok (CInt (Z.of_int i) :: converted)
      | None => Raise (ValueError "invalid literal for int() with base 10")
      end
  | c :: rest => converted <- decimal_cells rest ;; Ok (c :: converted)
  end.

Definition decimal_astype_native (t : pytype) (cells : list cell)
    : result (list cell) :=
  match t with
  | TInt => decimal_cells cells
  | _ => Raise (ValueError "no such conversion in the examples")
  end.

(** * Properties *)

(** ** Dictionaries *)

Lemma dict_set_keys {V : Type} (d : dict V) (k : string) (v : V) :
  keys (dict_set d k v)
  = if existsb (String.eqb k) (keys d) then keys d else (keys d ++ [k])%list.
Proof.
  unfold keys. induction d as [|[k' v'] d IH]; simpl; [reflexivity|].
  rewrite (String.eqb_sym k k').
  destruct (String.eqb k' k) eqn:E; simpl; [reflexivity|].
  rewrite IH.
  destruct (existsb (String.eqb k) (map fst d)); reflexivity.
Qed.

Lemma existsb_eqb_In (k : string) (l : list string) :
  existsb (String.eqb k) l = true <-> In k l.
Proof.
  rewrite existsb_exists. split.
  - intros [x [Hx E]]. apply String.eqb_eq in E. now subst.
  - intros H. exists k. split; [assumption | apply String.eqb_refl].
Qed.

Lemma dict_set_nodup {V : Type} (d : dict V) (k : string) (v : V) :
  NoDup (keys d) -> NoDup (keys (dict_set d k v)).
Proof.
  intros H. rewrite dict_set_keys.
  destruct (existsb (String.eqb k) (keys d)) eqn:E; [assumption|].
  assert (~ In k (keys d)) as Hn.
  { intros Hin. apply existsb_eqb_In in Hin. congruence. }
  apply NoDup_rev in H.
  rewrite <- (rev_involutive (keys d ++ [k])).
  apply NoDup_rev. rewrite rev_app_distr. simpl.
  constructor; [rewrite <- in_rev; assumption | assumption].
Qed.

Lemma dict_set_fresh {V : Type} (d : dict V) (k : string) (v : V) :
  ~ In k (keys d) -> dict_set d k v = (d ++ [(k, v)])%list.
Proof.
  induction d as [|[k' v'] d IH]; simpl; intros H; [reflexivity|].
  destruct (String.eqb k' k) eqn:E.
  - apply String.eqb_eq in E. exfalso. apply H. now left.
  - rewrite IH; [reflexivity|]. intros Hin. apply H. now right.
Qed.

Lemma dict_getitem_In_keys {V : Type} (d : dict V) (k : string) (v : V) :
  dict_getitem d k = Ok v -> In k (keys d).
Proof.
  induction d as [|[k' v'] d IH]; simpl; [discriminate|].
  destruct (String.eqb k' k) eqn:E.
  - apply String.eqb_eq in E. intros _. now left.
  - intros H. right. now apply IH.
Qed.

Lemma dict_getitem_total {V : Type} (d : dict V) (k : string) :
  In k (keys d) -> exists v, dict_getitem d k = Ok v.
Proof.
  induction d as [|[k' v'] d IH]; simpl; [tauto|].
  intros [E|H].
  - subst. rewrite String.eqb_refl. now exists v'.
  - destruct (String.eqb k' k); [now exists v' | now apply IH].
Qed.

(** With distinct keys, [d[k]] is the value stored with [k]. *)
Lemma dict_getitem_item {V : Type} (d : dict V) (k : string) (v : V) :
  NoDup (keys d) -> In (k, v) d -> dict_getitem d k = Ok v.
Proof.
  induction d as [|[k' v'] d IH]; simpl; [tauto|].
  intros Hnd [E|H].
  - inversion E; subst. now rewrite String.eqb_refl.
  - inversion Hnd as [|? ? Hn Hd]; subst.
    destruct (String.eqb k' k) eqn:E.
    + apply String.eqb_eq in E. subst. exfalso. apply Hn.
      change k with (fst (k, v)). now apply in_map.
    + now apply IH.
Qed.

(** ** The normalizer *)

Lemma all_str_map (names : list string) :
  all_str (map PStr names) = Some names.
Proof.
  induction names as [|n names IH]; simpl; [reflexivity | now rewrite IH].
Qed.

Lemma all_str_some (xs : list pyval) (names : list string) :
  all_str xs = Some names -> xs = map PStr names.
Proof.
  revert names. induction xs as [|x xs IH]; simpl; intros names H.
  - now inversion H.
  - destruct x; try discriminate.
    destruct (all_str xs) as [ns|]; [|discriminate].
    inversion H; subst. simpl. f_equal. now apply IH.
Qed.

Lemma all_str_is_str (xs : list pyval) :
  forallb is_str xs = true <-> exists names, all_str xs = Some names.
Proof.
  induction xs as [|x xs IH]; simpl.
  - split; [now exists [] | reflexivity].
  - destruct x; simpl; try (split; [discriminate | intros [? ?]; discriminate]).
    rewrite IH. split.
    + intros [ns E]. rewrite E. now eexists.
    + intros [ns E]. destruct (all_str xs); [now eexists | discriminate].
Qed.

Lemma unconstrained_acc (names : list string) (acc : dict (list pyval)) :
  NoDup (keys acc ++ names) ->
  fold_left (fun d attr => dict_set d attr []) names acc
  = (acc ++ map (fun n => (n, [])) names)%list.
Proof.
  revert acc. induction names as [|n names IH]; intros acc H; simpl.
  - now rewrite app_nil_r.
  - assert (~ In n (keys acc)) as Hn.
    { apply NoDup_remove_2 in H. intros Hin. apply H.
      apply in_or_app. now left. }
    rewrite dict_set_fresh by assumption.
    rewrite IH.
    + now rewrite <- app_assoc.
    + unfold keys. rewrite map_app. simpl. rewrite <- app_assoc. exact H.
Qed.

(** A list of distinct names becomes one unconstrained entry per name, in
    the order of the list. *)
Lemma normalize_by_names (names : list string) :
  NoDup names ->
  normalize_by (PList (map PStr names))
  = Ok (map (fun n => (n, [])) names).
Proof.
  intros H. simpl. rewrite all_str_map. unfold unconstrained.
  now rewrite unconstrained_acc.
Qed.

Lemma normalize_items_acc (names : list string) (fs : list pyval)
    (vs : list (list pyval)) (acc : dict (list pyval)) :
  NoDup (keys acc ++ names) ->
  Forall2 (fun f v => normalize_filter f = Ok v) fs vs ->
  List.length names = List.length fs ->
  normalize_items acc (combine names fs)
  = Ok (acc ++ combine names vs)%list.
Proof.
  intros Hnd HF. revert names acc Hnd.
  induction HF as [|f v fs vs Hf HF IH]; intros names acc Hnd Hlen.
  - destruct names; [|discriminate]. simpl. now rewrite app_nil_r.
  - destruct names as [|n names]; [discriminate|]. simpl.
    rewrite Hf. simpl.
    assert (~ In n (keys acc)) as Hn.
    { apply NoDup_remove_2 in Hnd. intros Hin. apply Hnd.
      apply in_or_app. now left. }
    rewrite dict_set_fresh by assumption.
    rewrite IH.
    + now rewrite <- app_assoc.
    + unfold keys. rewrite map_app. simpl. rewrite <- app_assoc. exact Hnd.
    + simpl in Hlen. lia.
Qed.

Lemma combine_keys_filters (names : list string) (fs : list pyval) :
  List.length names = List.length fs ->
  map fst (combine (map PStr names) fs) = map PStr names
  /\ map snd (combine (map PStr names) fs) = fs.
Proof.
  revert fs. induction names as [|n names IH]; intros [|f fs] Hlen;
    simpl in *; try discriminate; [split; reflexivity|].
  destruct (IH fs) as [E1 E2]; [lia|]. now rewrite E1, E2.
Qed.

(** A dictionary with distinct string keys is normalized entry by entry,
    in the order of its keys. *)
Lemma normalize_by_items (names : list string) (fs : list pyval)
    (vs : list (list pyval)) :
  NoDup names ->
  Forall2 (fun f v => normalize_filter f = Ok v) fs vs ->
  List.length names = List.length fs ->
  normalize_by (PDict (combine (map PStr names) fs))
  = Ok (combine names vs).
Proof.
  intros Hnd HF Hlen. simpl.
  destruct (combine_keys_filters names fs Hlen) as [E1 E2].
  rewrite E1, E2, all_str_map.
  now rewrite (normalize_items_acc names fs vs [] Hnd HF Hlen).
Qed.

Lemma normalize_items_nodup (items : list (string * pyval))
    (acc d : dict (list pyval)) :
  NoDup (keys acc) -> normalize_items acc items = Ok d -> NoDup (keys d).
Proof.
  revert acc. induction items as [|[attr f] items IH]; simpl; intros acc Hnd H.
  - now inversion H; subst.
  - destruct (normalize_filter f) as [vals|e]; simpl in H; [|discriminate].
    apply (IH (dict_set acc attr vals)); [now apply dict_set_nodup | exact H].
Qed.

(** The keys of a normalized grouping are distinct. *)
Lemma normalize_by_nodup (by_ : pyval) (d : dict (list pyval)) :
  normalize_by by_ = Ok d -> NoDup (keys d).
Proof.
  destruct by_; simpl; try discriminate.
  - intros H. inversion H; subst. simpl. repeat constructor. tauto.
  - destruct (all_str items) as [names|]; [|discriminate].
    intros H. inversion H; subst. clear H. unfold unconstrained.
    assert (forall acc : dict (list pyval), NoDup (keys acc) ->
              NoDup (keys (fold_left (fun d attr => dict_set d attr [])
                                     names acc))) as G.
    { induction names as [|n names IH]; simpl; intros acc Ha; [assumption|].
      apply IH. now apply dict_set_nodup. }
    apply G. constructor.
  - destruct (all_str (map fst items)) as [names|]; [|discriminate].
    apply normalize_items_nodup. constructor.
Qed.

Lemma forallb_valid_scalar (items : list pyval) :
  forallb (fun val => type_in (type_of val) valid_types) items
  = forallb is_scalar items.
Proof.
  induction items as [|x xs IH]; [reflexivity|].
  cbn [forallb]. rewrite IH. now destruct x.
Qed.

Lemma normalize_filter_list (items : list pyval) :
  normalize_filter (PList items)
  = if forallb is_scalar items then Ok items else Raise filter_error.
Proof.
  unfold normalize_filter.
  change (type_in (type_of (PList items)) valid_types) with false.
  cbv beta iota. now rewrite forallb_valid_scalar.
Qed.

Lemma normalize_filter_accepted (f : pyval) :
  accepted_filter f = true -> exists vals, normalize_filter f = Ok vals.
Proof.
  destruct f; intros H; try discriminate H; try (eexists; reflexivity).
  rewrite normalize_filter_list. simpl in H. rewrite H. now eexists.
Qed.

Lemma normalize_filter_rejected (f : pyval) :
  accepted_filter f = false -> normalize_filter f = Raise filter_error.
Proof.
  destruct f; intros H; try discriminate H; try reflexivity.
  rewrite normalize_filter_list. simpl in H. now rewrite H.
Qed.

Lemma normalize_items_accepted (items : list (string * pyval))
    (acc : dict (list pyval)) :
  forallb (fun kv => accepted_filter (snd kv)) items = true ->
  exists d, normalize_items acc items = Ok d.
Proof.
  revert acc. induction items as [|[attr f] items IH]; simpl; intros acc H.
  - now eexists.
  - apply andb_true_iff in H. destruct H as [Hf H].
    destruct (normalize_filter_accepted f Hf) as [vals E]. rewrite E. simpl.
    now apply IH.
Qed.

Lemma normalize_items_rejected (items : list (string * pyval))
    (acc : dict (list pyval)) :
  forallb (fun kv => accepted_filter (snd kv)) items = false ->
  normalize_items acc items = Raise filter_error.
Proof.
  revert acc. induction items as [|[attr f] items IH]; simpl; intros acc H.
  - discriminate.
  - destruct (accepted_filter f) eqn:Hf; simpl in H.
    + destruct (normalize_filter_accepted f Hf) as [vals E]. rewrite E. simpl.
      now apply IH.
    + now rewrite (normalize_filter_rejected f Hf).
Qed.

Lemma accepted_filters_combine (items : list (pyval * pyval))
    (names : list string) :
  map fst items = map PStr names ->
  forallb (fun kv : string * pyval => accepted_filter (snd kv))
          (combine names (map snd items))
  = forallb (fun kv : pyval * pyval => accepted_filter (snd kv)) items.
Proof.
  revert names. induction items as [|[k f] items IH]; intros [|n names] H;
    simpl in *; try discriminate; [reflexivity|].
  inversion H. f_equal. now apply IH.
Qed.

(** [normalize_by] raises exactly on the shapes that are not accepted. *)
Lemma normalize_by_accepted (by_ : pyval) :
  accepted_by by_ = true -> exists d, normalize_by by_ = Ok d.
Proof.
  destruct by_; simpl; try discriminate; intros H.
  - now eexists.
  - apply all_str_is_str in H. destruct H as [names E]. rewrite E.
    now eexists.
  - apply andb_true_iff in H. destruct H as [Hk Hf].
    assert (forallb is_str (map fst items) = true) as Hk'.
    { rewrite forallb_forall in *. intros x Hx. apply in_map_iff in Hx.
      destruct Hx as [kv [<- Hin]]. now apply Hk. }
    apply all_str_is_str in Hk'. destruct Hk' as [names E]. rewrite E.
    apply normalize_items_accepted.
    rewrite (accepted_filters_combine items names (all_str_some _ _ E)).
    exact Hf.
Qed.

Lemma normalize_by_rejected (by_ : pyval) :
  accepted_by by_ = false ->
  normalize_by by_ = Raise by_error \/ normalize_by by_ = Raise filter_error.
Proof.
  destruct by_; simpl; try discriminate; intros H; try (now left).
  - destruct (all_str items) as [names|] eqn:E; [|now left].
    assert (forallb is_str items = true) as C
      by (apply all_str_is_str; now exists names).
    congruence.
  - destruct (all_str (map fst items)) as [names|] eqn:E; [|now left].
    right. apply normalize_items_rejected.
    rewrite (accepted_filters_combine items names (all_str_some _ _ E)).
    assert (forallb (fun kv : pyval * pyval => is_str (fst kv)) items = true)
      as Hk.
    { assert (forallb is_str (map fst items) = true) as C
        by (apply all_str_is_str; now exists names).
      rewrite forallb_forall in *. intros x Hx. apply C.
      now apply in_map. }
    rewrite Hk in H. exact H.
Qed.

(** ** Warning filters *)

Lemma warning_filter_eqb_refl (f : warning_filter) :
  warning_filter_eqb f f = true.
Proof.
  unfold warning_filter_eqb.
  rewrite !String.eqb_refl, Z.eqb_refl.
  destruct (wf_message f), (wf_module f); simpl;
    rewrite ?String.eqb_refl; reflexivity.
Qed.

Lemma remove_first_head (item : warning_filter)
    (filters : list warning_filter) :
  remove_first item (item :: filters) = filters.
Proof. simpl. now rewrite warning_filter_eqb_refl. Qed.

(** Installing an entry in front is idempotent. *)
Lemma filterwarnings_front_idempotent (filters : list warning_filter)
    (action message category module : string) (lineno : Z) :
  filterwarnings
    (filterwarnings filters action message category module lineno false)
    action message category module lineno false
  = filterwarnings filters action message category module lineno false.
Proof. unfold filterwarnings. now rewrite remove_first_head. Qed.

(** ** [LIKE] and [DISTINCT] *)

Lemma like_char_refl (c : ascii) : like_char c c = true.
Proof. unfold like_char. rewrite Ascii.eqb_refl. apply orb_true_r. Qed.

Lemma like_percent (p s : string) :
  like (String "%" p) s
  = like p s
    || match s with
       | EmptyString => false
       | String _ s' => like (String "%" p) s'
       end.
Proof. destruct s; reflexivity. Qed.

(** A pattern that starts with [%] may skip any prefix of the string. *)
Lemma like_percent_skip (p pre s : string) :
  like p s = true -> like (String "%" p) (pre ++ s) = true.
Proof.
  intros H. induction pre as [|c pre IH]; rewrite like_percent.
  - cbn [append]. rewrite H. reflexivity.
  - cbn [append]. rewrite IH. apply orb_true_r.
Qed.

(** A string matches itself as a pattern, whatever characters it holds. *)
Lemma like_refl (s : string) : like s s = true.
Proof.
  induction s as [|c s IH]; [reflexivity|].
  destruct (Ascii.eqb c "%") eqn:E.
  - apply Ascii.eqb_eq in E. subst c.
    rewrite like_percent.
    pose proof (like_percent_skip s "" s IH) as H. cbn [append] in H.
    rewrite H. apply orb_true_r.
  - simpl. rewrite E, like_char_refl, IH. reflexivity.
Qed.


Lemma distinct_from_In (seen values : list string) (v : string) :
  In v (distinct_from seen values) <-> In v values /\ ~ In v seen.
Proof.
  revert seen. induction values as [|w values IH]; intros seen; simpl.
  - tauto.
  - destruct (existsb (String.eqb w) seen) eqn:E.
    + rewrite IH. apply existsb_eqb_In in E.
      split; [tauto|]. intros [[->|H] Hn]; tauto.
    + assert (~ In w seen) as Hw.
      { intros Hin. apply existsb_eqb_In in Hin. congruence. }
      simpl. rewrite IH. simpl.
      split.
      * intros [->|[H Hn]]; [tauto|]. split; [tauto|]. intros Hin.
        apply Hn. now right.
      * intros [[->|H] Hn]; [now left|].
        destruct (string_dec w v) as [->|Hne]; [now left|]. right.
        split; [assumption|]. intros [->|Hin]; tauto.
Qed.

(** [DISTINCT] keeps exactly the values that occur. *)
Lemma distinct_In (values : list string) (v : string) :
  In v (distinct values) <-> In v values.
Proof. unfold distinct. rewrite distinct_from_In. simpl. tauto. Qed.

Lemma distinct_from_constant (seen values : list string) (v : string) :
  (forall w, In w values -> w = v) ->
  distinct_from seen values
  = if existsb (String.eqb v) seen then []
    else match values with
         | [] => []
         | _ :: _ => [v]
         end.
Proof.
  revert seen. induction values as [|w values IH]; intros seen H; simpl.
  - now destruct (existsb (String.eqb v) seen).
  - assert (w = v) as -> by (apply H; now left).
    assert (forall w, In w values -> w = v) as H'
      by (intros w Hw; apply H; now right).
    destruct (existsb (String.eqb v) seen) eqn:E.
    + rewrite (IH seen H'), E. reflexivity.
    + rewrite (IH (v :: seen) H'). simpl. rewrite String.eqb_refl.
      reflexivity.
Qed.

(** One stored value, however often it is stored, is one row. *)
Lemma distinct_constant (values : list string) (v : string) :
  values <> [] -> (forall w, In w values -> w = v) -> distinct values = [v].
Proof.
  intros Hne H. unfold distinct. rewrite (distinct_from_constant [] values v H).
  simpl. destruct values; [congruence | reflexivity].
Qed.

(** ** [get_unique_param] *)

(** C8 (as amended): when the parameters whose names match hold exactly one
    distinct value, [get_unique_param] returns that value converted by the
    requested type; when no name matches, it returns the conversion of
    [None], so it fails only if the conversion rejects [None]. *)
Theorem get_unique_param_single_or_missing (con : database) (name : string)
    (type : pyval -> result pyval) :
  (forall v,
      (exists r, In r (tbl_runparam con)
                 /\ like ("%" ++ name) (rp_parName r) = true) ->
      (forall r, In r (tbl_runparam con) ->
                 like ("%" ++ name) (rp_parName r) = true ->
                 rp_parValue r = v) ->
      get_unique_param con name type = type (PStr v))
  /\ ((forall r, In r (tbl_runparam con) ->
                 like ("%" ++ name) (rp_parName r) = false) ->
      get_unique_param con name type = type PNone).
Proof.
  unfold get_unique_param, select_distinct_parValue. split.
  - intros v [r [Hin Hr]] Hall.
    rewrite (distinct_constant _ v); [reflexivity | |].
    + intros E.
      assert (In (rp_parValue r)
                 (map rp_parValue
                    (filter (fun r => like ("%" ++ name) (rp_parName r))
                            (tbl_runparam con)))) as Hv.
      { apply in_map, filter_In. now split. }
      rewrite E in Hv. destruct Hv.
    + intros w Hw. apply in_map_iff in Hw. destruct Hw as [r' [<- Hr']].
      apply filter_In in Hr'. destruct Hr' as [Hin' Hl]. now apply Hall.
  - intros Hnone.
    assert (filter (fun r => like ("%" ++ name) (rp_parName r))
                   (tbl_runparam con) = []) as E.
    { induction (tbl_runparam con) as [|r rs IH]; [reflexivity|].
      cbn [filter]. rewrite (Hnone r) by now left.
      apply IH. intros r' Hr'. apply Hnone. now right. }
    rewrite E. reflexivity.
Qed.

(** C5: the three accepted shapes of [by] have one canonical form.  A name,
    the list of that name, and the dictionary from that name to an empty
    list all normalize to the grouping with that one unconstrained
    attribute; in a dictionary [None] becomes the empty filter list, a
    scalar the list of that scalar, and a list of scalars that same list. *)
Theorem normalize_by_canonical (n : string) :
  normalize_by (PStr n) = Ok [(n, [])]
  /\ normalize_by (PList [PStr n]) = Ok [(n, [])]
  /\ normalize_by (PDict [(PStr n, PList [])]) = Ok [(n, [])]
  /\ normalize_by (PDict [(PStr n, PNone)]) = Ok [(n, [])]
  /\ (forall v, is_scalar v = true ->
                normalize_by (PDict [(PStr n, v)]) = Ok [(n, [v])])
  /\ (forall vals, forallb is_scalar vals = true ->
                   normalize_by (PDict [(PStr n, PList vals)])
                   = Ok [(n, vals)]).
Proof.
  repeat split; try reflexivity.
  - intros v Hv. destruct v; try discriminate Hv; reflexivity.
  - intros vals Hv. cbn [normalize_by map fst snd all_str combine
                           normalize_items].
    rewrite normalize_filter_list, Hv. reflexivity.
Qed.

(** ** The statement and the frame of [get_vector] *)

Lemma bind_ok {A B : Type} (m : result A) (k : A -> result B) (b : B) :
  bind m k = Ok b -> exists a, m = Ok a /\ k a = Ok b.
Proof. destruct m as [a|e]; simpl; [now exists a | discriminate]. Qed.

Lemma attribute_subqueries_keys (by_ : dict (list pyval))
    (attributes : list string) (queries : dict attr_filter) :
  attribute_subqueries by_ attributes = Ok queries ->
  keys queries = attributes.
Proof.
  revert queries. induction attributes as [|a attrs IH]; simpl; intros qs H.
  - now inversion H.
  - apply bind_ok in H. destruct H as [e [_ H]].
    apply bind_ok in H. destruct H as [qs' [Hq H]].
    inversion H; subst. simpl. f_equal. now apply IH.
Qed.

Lemma attribute_subqueries_total (by_ : dict (list pyval))
    (attributes : list string) :
  incl attributes (keys by_) ->
  exists queries, attribute_subqueries by_ attributes = Ok queries.
Proof.
  induction attributes as [|a attrs IH]; simpl; intros H.
  - now eexists.
  - destruct (dict_getitem_total by_ a) as [vals E]; [apply H; now left|].
    destruct IH as [qs Hq]; [intros x Hx; apply H; now right|].
    unfold attribute_filter_expression. rewrite E. simpl. rewrite Hq. simpl.
    now eexists.
Qed.

(** The attribute columns on the select list: every attribute of the
    grouping, in order, except the singular ones when the result need not
    be self-descriptive. *)
Lemma select_attributes_In (by_ : dict (list pyval))
    (queries : dict attr_filter) (sd : bool) (cols : list column_expr)
    (a : string) :
  select_attributes by_ queries sd = Ok cols ->
  In (AttrValue a) cols
  <-> In a (keys queries)
      /\ exists vals, dict_getitem by_ a = Ok vals
                      /\ (Nat.eqb (List.length vals) 1 && negb sd) = false.
Proof.
  revert cols. induction queries as [|[attr q] queries IH]; simpl; intros cols H.
  - inversion H; subst. simpl. tauto.
  - apply bind_ok in H. destruct H as [vals [Hv H]].
    apply bind_ok in H. destruct H as [cols' [Hc H]].
    specialize (IH cols' Hc). inversion H; subst; clear H.
    destruct (Nat.eqb (List.length vals) 1 && negb sd) eqn:E; simpl.
    + rewrite IH. split; [tauto|].
      intros [[->|Hin] [vals' [Hv' E']]]; [|eauto].
      rewrite Hv in Hv'. inversion Hv'; subst. congruence.
    + rewrite IH. split.
      * intros [Heq|[Hin Hex]]; [|tauto].
        inversion Heq; subst. split; [now left | eauto].
      * intros [[->|Hin] Hex]; [now left | tauto].
Qed.

Lemma select_attributes_only_attributes (by_ : dict (list pyval))
    (queries : dict attr_filter) (sd : bool) (cols : list column_expr) :
  select_attributes by_ queries sd = Ok cols ->
  forall c, In c cols -> exists a, c = AttrValue a.
Proof.
  revert cols. induction queries as [|[attr q] queries IH]; simpl; intros cols H.
  - inversion H; subst. simpl. tauto.
  - apply bind_ok in H. destruct H as [vals [Hv H]].
    apply bind_ok in H. destruct H as [cols' [Hc H]].
    inversion H; subst; clear H. intros c Hin.
    destruct (negb (Nat.eqb (List.length vals) 1 && negb sd)).
    + destruct Hin as [<-|Hin]; [now eexists | now apply (IH cols')].
    + now apply (IH cols').
Qed.


(** The [GROUP BY] columns: the attributes whose filter list does not have
    exactly one entry, in the order of the grouping. *)
Lemma group_by_attributes_filter (by_ : dict (list pyval))
    (entries : dict (list pyval)) (queries : dict attr_filter) :
  NoDup (keys by_) -> incl entries by_ -> keys queries = keys entries ->
  group_by_attributes by_ queries
  = Ok (keys (filter (fun kv => negb (Nat.eqb (List.length (snd kv)) 1))
                     entries)).
Proof.
  intros Hnd. revert queries.
  induction entries as [|[a vals] entries IH]; intros [|[a' q] queries] Hin Hk;
    simpl in *; try discriminate; [reflexivity|].
  inversion Hk; subst.
  unfold single_filter.
  rewrite (dict_getitem_item by_ a vals Hnd) by (apply Hin; now left).
  simpl. rewrite IH; [|intros x Hx; apply Hin; now right | assumption].
  simpl. now destruct (Nat.eqb (List.length vals) 1).
Qed.


(** What a statement that was built consists of. *)
Lemma get_vector_statement_ok (by_ : dict (list pyval)) (variable : pyval)
    (time module : bool) (filter_ : option (joined_row -> bool))
    (aggregate : option aggregate_fn) (sd : bool) (stmt : statement) :
  get_vector_statement by_ variable time module filter_ aggregate sd
  = Ok stmt ->
  exists queries attrs n,
    attribute_subqueries by_ (keys by_) = Ok queries
    /\ select_attributes by_ queries sd = Ok attrs
    /\ py_len variable = Ok n
    /\ stmt_select stmt
       = (attrs
          ++ (if time then [Simtime] else [])
          ++ (if module then [ModuleName] else [])
          ++ (if negb (Nat.eqb n 1 && negb sd) then [VectorName] else [])
          ++ [match aggregate with
              | Some f => Aggregated f
              | None => Value
              end])%list
    /\ stmt_from stmt = queries
    /\ match aggregate with
       | Some _ => group_by_attributes by_ queries = Ok (stmt_group_by stmt)
       | None => stmt_group_by stmt = []
       end.
Proof.
  unfold get_vector_statement. intros H.
  apply bind_ok in H. destruct H as [queries [Hq H]].
  apply bind_ok in H. destruct H as [attrs [Ha H]].
  apply bind_ok in H. destruct H as [n [Hn H]].
  apply bind_ok in H. destruct H as [names [Hi H]].
  apply bind_ok in H. destruct H as [gb [Hg H]].
  inversion H; subst; clear H. simpl.
  exists queries, attrs, n. repeat split; try assumption.
  destruct aggregate; [assumption | now inversion Hg].
Qed.


Section Properties.

Variable real_text : Q -> string.
Variable astype_native : pytype -> list cell -> result (list cell).

(** [pd.read_sql] names the columns of the frame by the labels of the
    select list. *)
Lemma read_sql_columns (stmt : statement) (db : database) (df : dataframe) :
  read_sql real_text stmt db = Ok df ->
  columns df = map label (stmt_select stmt).
Proof.
  unfold read_sql.
  destruct (forallb bindable (statement_params stmt)); [|discriminate].
  intros H. inversion H; subst; clear H.
  unfold columns. rewrite map_map. reflexivity.
Qed.

Lemma astype_name (dt : dtype) (s s' : series) :
  astype astype_native dt s = Ok s' -> s_name s' = s_name s.
Proof.
  destruct dt; simpl; intros H.
  - now inversion H.
  - now inversion H.
  - apply bind_ok in H. destruct H as [cells [_ H]]. now inversion H.
  - now inversion H.
Qed.

(** What the assignment does to one column of the frame. *)
Lemma assign_columns_cons (stored : dtype) (s0 : series) (df df' : dataframe)
    (key : string) (dt : dtype) :
  assign_columns astype_native stored (s0 :: df) key dt = Ok df' ->
  exists s' rest,
    df' = s' :: rest
    /\ assign_columns astype_native stored df key dt = Ok rest
    /\ ((String.eqb (s_name s0) key = true
         /\ exists c, astype astype_native dt s0 = Ok c
                      /\ s' = with_dtype stored c)
        \/ (String.eqb (s_name s0) key = false /\ s' = s0)).
Proof.
  simpl. intros H.
  apply bind_ok in H. destruct H as [s' [Hs H]].
  apply bind_ok in H. destruct H as [rest [Hr H]].
  inversion H; subst; clear H. exists s', rest.
  split; [reflexivity|]. split; [assumption|].
  destruct (String.eqb (s_name s0) key).
  - left. split; [reflexivity|].
    apply bind_ok in Hs. destruct Hs as [c [Hc Hs]].
    exists c. split; [assumption|]. now inversion Hs.
  - right. split; [reflexivity|]. now inversion Hs.
Qed.

Lemma assign_columns_columns (stored : dtype) (df df' : dataframe)
    (key : string) (dt : dtype) :
  assign_columns astype_native stored df key dt = Ok df' ->
  columns df' = columns df.
Proof.
  revert df'. induction df as [|s df IH]; intros df' H.
  - now inversion H.
  - apply assign_columns_cons in H.
    destruct H as [s' [rest [-> [Hr Hs]]]]. simpl. f_equal; [|now apply IH].
    destruct Hs as [[_ [c [Hc ->]]]|[_ ->]]; [|reflexivity].
    now apply astype_name in Hc.
Qed.

Lemma assign_astype_columns (df df' : dataframe) (key : string)
    (dt : dtype) :
  assign_astype astype_native df key dt = Ok df' -> columns df' = columns df.
Proof. apply assign_columns_columns. Qed.

(** After [df[key] = df[key].astype(dt)] every column named [key] has the
    dtype the assignment stores. *)
Lemma assign_astype_dtype (df df' : dataframe) (key : string) (dt : dtype) :
  assign_astype astype_native df key dt = Ok df' ->
  forall s, In s df' -> s_name s = key ->
            s_dtype s = stored_dtype df key dt.
Proof.
  unfold assign_astype. generalize (stored_dtype df key dt) as stored.
  intros stored. revert df'. induction df as [|s0 df IH]; intros df' H.
  - inversion H; subst. simpl. tauto.
  - apply assign_columns_cons in H.
    destruct H as [s' [rest [-> [Hr Hs]]]]. intros s [<-|Hin] Hname.
    + destruct Hs as [[_ [c [_ ->]]]|[E ->]]; [reflexivity|].
      apply String.eqb_neq in E. congruence.
    + now apply (IH rest).
Qed.

(** The columns of other names are left as they were. *)
Lemma assign_astype_others (df df' : dataframe) (key : string) (dt : dtype) :
  assign_astype astype_native df key dt = Ok df' ->
  forall s, In s df' -> s_name s <> key -> In s df.
Proof.
  unfold assign_astype. generalize (stored_dtype df key dt) as stored.
  intros stored. revert df'. induction df as [|s0 df IH]; intros df' H.
  - inversion H; subst. simpl. tauto.
  - apply assign_columns_cons in H.
    destruct H as [s' [rest [-> [Hr Hs]]]]. intros s [<-|Hin] Hname.
    + destruct Hs as [[E [c [Hc ->]]]|[_ ->]]; [|now left].
      apply astype_name in Hc. apply String.eqb_eq in E.
      simpl in Hname. congruence.
    + right. now apply (IH rest).
Qed.

Lemma cast_attribute_ok (df df' : dataframe) (attr : string)
    (vals : list pyval) :
  cast_attribute astype_native df attr vals = Ok df' ->
  exists first rest dt,
    vals = first :: rest
    /\ (if pytype_eqb (type_of first) TStr
        then CategoricalDtype vals true
        else Ok (Native (type_of first))) = Ok dt
    /\ assign_astype astype_native df attr dt = Ok df'.
Proof.
  unfold cast_attribute. intros H.
  apply bind_ok in H. destruct H as [cols [_ H]].
  apply bind_ok in H. destruct H as [first [Hf H]].
  apply bind_ok in H. destruct H as [dt [Hd H]].
  destruct vals as [|v rest]; [discriminate|].
  inversion Hf; subst. now exists first, rest, dt.
Qed.

Lemma cast_attributes_columns (items : list (string * list pyval))
    (df df' : dataframe) :
  cast_attributes astype_native df items = Ok df' -> columns df' = columns df.
Proof.
  revert df. induction items as [|[attr vals] items IH]; simpl; intros df H.
  - now inversion H.
  - apply bind_ok in H. destruct H as [df1 [H1 H]].
    rewrite (IH df1 H).
    apply cast_attribute_ok in H1.
    destruct H1 as [first [rest [dt [_ [_ H1]]]]].
    now apply assign_astype_columns in H1.
Qed.

(** Casting by other attributes leaves the columns named [a] alone. *)
Lemma cast_attributes_others (items : list (string * list pyval))
    (df df' : dataframe) (a : string) :
  ~ In a (keys items) ->
  cast_attributes astype_native df items = Ok df' ->
  forall s, In s df' -> s_name s = a -> In s df.
Proof.
  revert df. induction items as [|[attr vals] items IH]; simpl; intros df Hn H.
  - now inversion H.
  - apply bind_ok in H. destruct H as [df1 [H1 H]].
    intros s Hin Hname.
    assert (In s df1) as Hin1.
    { apply (IH df1); [intros C; apply Hn; now right | assumption..]. }
    apply cast_attribute_ok in H1.
    destruct H1 as [first [rest [dt [_ [_ H1]]]]].
    apply (assign_astype_others _ _ _ _ H1); [assumption|].
    intros C. apply Hn. left. congruence.
Qed.

(** The loop raises when it meets an attribute with an empty filter list,
    if it has not raised before. *)
Lemma cast_attributes_unconstrained (items : list (string * list pyval))
    (df : dataframe) (a : string) :
  In (a, []) items ->
  exists e, cast_attributes astype_native df items = Raise e.
Proof.
  revert df. induction items as [|[attr vals] items IH]; simpl; intros df Hin;
    [tauto|].
  destruct Hin as [E|Hin].
  - inversion E; subst; clear E. unfold cast_attribute.
    destruct (df_getitem df a) as [cols|e]; simpl; now eexists.
  - destruct (cast_attribute astype_native df attr vals) as [df1|e]; simpl;
      [now apply IH | now eexists].
Qed.

(** The loop raises [KeyError] at the first attribute that has no column
    in the frame. *)
Lemma cast_attribute_missing (df : dataframe) (attr : string)
    (vals : list pyval) :
  ~ In attr (columns df) ->
  cast_attribute astype_native df attr vals = Raise (KeyError attr).
Proof.
  intros Hn. unfold cast_attribute, df_getitem.
  assert (filter (fun s => String.eqb (s_name s) attr) df = []) as E.
  { induction df as [|s df IH]; [reflexivity|]. simpl.
    destruct (String.eqb (s_name s) attr) eqn:Es.
    - apply String.eqb_eq in Es. exfalso. apply Hn. now left.
    - apply IH. intros C. apply Hn. now right. }
  rewrite E. reflexivity.
Qed.

(** The steps of a call that returns a frame. *)
Lemma get_vector_ok (filters : list warning_filter) (engine : database)
    (by_ variable : pyval) (time run module : bool)
    (filter_ : option (joined_row -> bool))
    (aggregate : option aggregate_fn) (sd : bool) (df : dataframe) :
  snd (get_vector real_text astype_native filters engine by_ variable time
         run module filter_ aggregate sd) = Ok df ->
  exists nby stmt df0,
    normalize_by by_ = Ok nby
    /\ get_vector_statement nby (normalize_variable variable) time module
         filter_ aggregate sd = Ok stmt
    /\ read_sql real_text stmt engine = Ok df0
    /\ cast_attributes astype_native df0 nby = Ok df.
Proof.
  unfold get_vector. cbn [snd]. intros H.
  apply bind_ok in H. destruct H as [nby [Hn H]].
  apply bind_ok in H. destruct H as [stmt [Hs H]].
  apply bind_ok in H. destruct H as [df0 [Hr H]].
  now exists nby, stmt, df0.
Qed.

(** The columns of a returned frame are the labels of the select list. *)
Lemma get_vector_columns (filters : list warning_filter) (engine : database)
    (by_ variable : pyval) (time run module : bool)
    (filter_ : option (joined_row -> bool))
    (aggregate : option aggregate_fn) (sd : bool) (df : dataframe) :
  snd (get_vector real_text astype_native filters engine by_ variable time
         run module filter_ aggregate sd) = Ok df ->
  exists nby stmt,
    normalize_by by_ = Ok nby
    /\ get_vector_statement nby (normalize_variable variable) time module
         filter_ aggregate sd = Ok stmt
    /\ columns df = map label (stmt_select stmt).
Proof.
  intros H. apply get_vector_ok in H.
  destruct H as [nby [stmt [df0 [Hn [Hs [Hr Hc]]]]]].
  exists nby, stmt. repeat split; try assumption.
  rewrite (cast_attributes_columns _ _ _ Hc).
  exact (read_sql_columns _ _ _ Hr).
Qed.

(** The entries that follow the attribute columns on the select list are
    none of them attribute columns, and their labels are fixed. *)
Lemma fixed_columns_labels (time module vector_name : bool)
    (aggregate : option aggregate_fn) (c : column_expr) :
  In c ((if time then [Simtime] else [])
        ++ (if module then [ModuleName] else [])
        ++ (if vector_name then [VectorName] else [])
        ++ [match aggregate with
            | Some f => Aggregated f
            | None => Value
            end])%list ->
  (forall a, c <> AttrValue a)
  /\ (In (label c) ["simtime"; "moduleName"; "vectorName"; "value"]
      \/ exists f, aggregate = Some f /\ label c = agg_name f ++ "_1").
Proof.
  intros H.
  repeat (apply in_app_or in H; destruct H as [H|H]).
  - destruct time; [|destruct H]. destruct H as [<-|[]].
    split; [discriminate | left; simpl; tauto].
  - destruct module; [|destruct H]. destruct H as [<-|[]].
    split; [discriminate | left; simpl; tauto].
  - destruct vector_name; [|destruct H]. destruct H as [<-|[]].
    split; [discriminate | left; simpl; tauto].
  - destruct H as [<-|[]]. destruct aggregate as [f|].
    + split; [discriminate | right; now exists f].
    + split; [discriminate | left; simpl; tauto].
Qed.

(** C1: the call of the first example of the docstring,
    [get_vector(engine, 'nCars', 'collisions')], returns no table.  On
    every store the statement is built and read, and the post-processing
    loop then raises [IndexError] at [vals[0]], the filter list of the
    unconstrained attribute being empty. *)
Theorem get_vector_unconstrained_example (filters : list warning_filter)
    (engine : database) (run : bool) :
  snd (get_vector real_text astype_native filters engine
         (PStr "nCars") (PStr "collisions") false run false None None false)
  = Raise (IndexError "list index out of range").
Proof. reflexivity. Qed.

(** The select list does not mention the requested variable: two calls
    that differ only in the name of their single variable select the same
    columns. *)
Lemma get_vector_select_ignores_variable_name (nby : dict (list pyval))
    (name1 name2 : string) (time module : bool)
    (filter_ : option (joined_row -> bool))
    (aggregate : option aggregate_fn) (sd : bool) (stmt1 stmt2 : statement) :
  get_vector_statement nby (normalize_variable (PStr name1)) time module
    filter_ aggregate sd = Ok stmt1 ->
  get_vector_statement nby (normalize_variable (PStr name2)) time module
    filter_ aggregate sd = Ok stmt2 ->
  stmt_select stmt1 = stmt_select stmt2.
Proof.
  intros H1 H2.
  apply get_vector_statement_ok in H1, H2.
  destruct H1 as [q1 [a1 [n1 [Hq1 [Ha1 [Hn1 [Hs1 _]]]]]]].
  destruct H2 as [q2 [a2 [n2 [Hq2 [Ha2 [Hn2 [Hs2 _]]]]]]].
  rewrite Hq1 in Hq2. inversion Hq2; subst q2.
  rewrite Ha1 in Ha2. inversion Ha2; subst a2.
  simpl in Hn1, Hn2. inversion Hn1; inversion Hn2; subst.
  now rewrite Hs1, Hs2.
Qed.

(** C3: with one requested variable and [self_descriptive_result=False]
    the frame carries no vector-name column, but its value column keeps the
    name [value] of the sample table's column: it is not renamed to the
    variable. *)
Theorem get_vector_value_column_not_renamed
    (filters : list warning_filter) (engine : database) (run : bool) :
  exists df,
    snd (get_vector real_text astype_native filters engine
           (PDict [(PStr "nCars", PList [PStr "160"; PStr "320"])])
           (PStr "collisions") false run false None None false) = Ok df
    /\ columns df = ["nCars"; "value"]
    /\ ~ In "collisions" (columns df).
Proof.
  eexists. split; [reflexivity|]. split; [reflexivity|].
  simpl. intros [C|[C|[]]]; discriminate.
Qed.

(** *** Grouping *)

Lemma eval_attribute_text (a : string) (row : joined_row) :
  text_cell (eval_column (AttrValue a) row).
Proof. simpl. now destruct (dict_getitem (jr_attrs row) a). Qed.

Lemma group_key_text (group_by : list string) (row : joined_row) :
  Forall text_cell (group_key group_by row).
Proof.
  unfold group_key. induction group_by as [|a gb IH]; simpl; constructor;
    [apply eval_attribute_text | exact IH].
Qed.

Lemma cell_text_eqb_eq (a b : cell) :
  text_cell a -> text_cell b -> cell_text_eqb a b = true <-> a = b.
Proof.
  destruct a, b; simpl; try tauto; intros _ _;
    try (split; [discriminate | discriminate]).
  rewrite String.eqb_eq. split; [now intros -> | now inversion 1].
Qed.

Lemma key_eqb_eq (k k' : list cell) :
  Forall text_cell k -> Forall text_cell k' ->
  key_eqb k k' = true <-> k = k'.
Proof.
  intros Hk. revert k'. induction Hk as [|c k Hc Hk IH]; intros k' Hk'.
  - destruct k'; simpl; [tauto | split; discriminate].
  - destruct Hk' as [|c' k' Hc' Hk']; simpl; [split; discriminate|].
    rewrite andb_true_iff, (cell_text_eqb_eq _ _ Hc Hc'), (IH k' Hk').
    split; [now intros [-> ->] | now inversion 1].
Qed.

Lemma add_to_group_ok (group_by : list string) (row : joined_row)
    (groups : list (list cell * list joined_row)) :
  groups_ok group_by groups ->
  groups_ok group_by (add_to_group (group_key group_by row) row groups)
  /\ forall k, In k (map fst (add_to_group (group_key group_by row) row
                                groups))
               <-> In k (map fst groups) \/ k = group_key group_by row.
Proof.
  pose proof (group_key_text group_by row) as Hkey.
  induction groups as [|[k g] groups IH]; intros [Hnd Hall].
  - simpl. split.
    + split; [repeat constructor; tauto|].
      repeat constructor; simpl; [assumption | discriminate].
    + intros k. split; [intros [<-|[]]; now right | intros [[]| ->]; now left].
  - inversion Hnd as [|? ? Hnot Hnd']; subst.
    inversion Hall as [|? ? [Htext [Hne Hrows]] Hall']; subst.
    simpl in Htext, Hne, Hrows. simpl.
    destruct (key_eqb k (group_key group_by row)) eqn:E.
    + apply (key_eqb_eq _ _ Htext Hkey) in E. split.
      * split; [exact Hnd|]. constructor; [|exact Hall']. simpl.
        split; [assumption|]. split; [now destruct g|].
        apply Forall_app. split; [assumption | now repeat constructor].
      * intros k'. simpl. split; [tauto|]. intros [H| ->]; [tauto | now left].
    + destruct (IH (conj Hnd' Hall')) as [[Hnd1 Hall1] Hin1]. split.
      * split.
        -- simpl. constructor; [|exact Hnd1]. rewrite Hin1.
           intros [H|H]; [tauto|]. subst k.
           assert (key_eqb (group_key group_by row) (group_key group_by row)
                   = true) as C by now apply key_eqb_eq.
           congruence.
        -- constructor; [|exact Hall1]. simpl. tauto.
      * intros k'. simpl. rewrite Hin1. tauto.
Qed.

Lemma collect_groups_ok (group_by : list string) (rows : list joined_row)
    (groups : list (list cell * list joined_row)) :
  groups_ok group_by groups ->
  let collected :=
    fold_left (fun gs row => add_to_group (group_key group_by row) row gs)
              rows groups in
  groups_ok group_by collected
  /\ forall k, In k (map fst collected)
               <-> In k (map fst groups)
                   \/ exists row, In row rows /\ group_key group_by row = k.
Proof.
  revert groups. induction rows as [|row rows IH]; intros groups Hok; simpl.
  - split; [assumption|]. intros k. split; [tauto|].
    intros [H|[row [[] _]]]. assumption.
  - destruct (add_to_group_ok group_by row groups Hok) as [Hok1 Hin1].
    destruct (IH _ Hok1) as [Hok2 Hin2]. split; [assumption|].
    intros k. rewrite Hin2, Hin1. split.
    + intros [[H| ->]|[r [Hr E]]]; [tauto | right | right].
      * exists row. split; [now left | reflexivity].
      * exists r. split; [now right | assumption].
    + intros [H|[r [[<-|Hr] E]]]; [tauto | left; right; now symmetry |].
      right. exists r. now split.
Qed.

(** Grouped by one attribute, an aggregating statement returns one row for
    each distinct value of the attribute among the selected rows: the
    cells of the attribute's column are distinct, and they are exactly the
    values that occur. *)
Lemma group_by_one_row_per_value (a : string) (rows : list joined_row) :
  let cells := map (eval_group (AttrValue a)) (groups_of [a] rows) in
  NoDup cells
  /\ forall c, In c cells
               <-> exists row, In row rows
                               /\ eval_column (AttrValue a) row = c.
Proof.
  unfold groups_of.
  destruct (collect_groups_ok [a] rows []) as [[Hnd Hall] Hin].
  { split; constructor. }
  set (gs := fold_left (fun gs row => add_to_group (group_key [a] row) row gs)
                       rows []) in *.
  assert (map (eval_group (AttrValue a)) (map snd gs)
          = map (fun kg => hd CNull (fst kg)) gs) as E.
  { rewrite map_map. apply map_ext_in. intros [k g] Hkg.
    rewrite Forall_forall in Hall. destruct (Hall _ Hkg) as [_ [Hne Hrows]].
    simpl in *. destruct g as [|row g]; [congruence|].
    inversion Hrows as [|? ? Hk _]; subst. reflexivity. }
  cbv zeta. rewrite E.
  assert (forall kg, In kg gs -> fst kg = [hd CNull (fst kg)]) as Hone.
  { intros [k g] Hkg. rewrite Forall_forall in Hall.
    destruct (Hall _ Hkg) as [_ [Hne Hrows]]. simpl in *.
    destruct g as [|row g]; [congruence|].
    inversion Hrows as [|? ? Hk _]; subst. reflexivity. }
  split.
  - clear E Hin. induction gs as [|kg gs IH]; simpl; constructor.
    + inversion Hnd as [|? ? Hnot _]; subst. intros C. apply Hnot.
      apply in_map_iff in C. destruct C as [kg' [E Hkg']].
      apply in_map_iff. exists kg'. split; [|assumption].
      rewrite (Hone kg') by now right. rewrite (Hone kg) by now left.
      now rewrite E.
    + inversion Hnd; subst. inversion Hall; subst.
      apply IH; try assumption. intros kg' Hkg'. apply Hone. now right.
  - intros c. split.
    + intros Hc. apply in_map_iff in Hc. destruct Hc as [kg [<- Hkg]].
      assert (In (fst kg) (map fst gs)) as Hk by now apply in_map.
      apply Hin in Hk. destruct Hk as [[]|[row [Hrow Hk]]].
      exists row. split; [assumption|]. rewrite <- Hk. reflexivity.
    + intros [row [Hrow <-]].
      assert (In (group_key [a] row) (map fst gs)) as Hk.
      { apply Hin. right. now exists row. }
      apply in_map_iff in Hk. destruct Hk as [kg [Hk Hkg]].
      apply in_map_iff. exists kg. split; [|assumption]. now rewrite Hk.
Qed.

(** The label of an aggregated column ends in [_1]. *)
Lemma anonymous_label_not_nCars (name : string) : name ++ "_1" <> "nCars".
Proof.
  destruct name as [|c1 [|c2 [|c3 [|c4 [|c5 [|c6 name]]]]]]; discriminate.
Qed.

(** C4: with an aggregate the statement groups by the attributes whose
    normalized filter list does not have exactly one entry, in the order
    of the grouping.  For the grouping [{nCars: 320, repetition: []}] that
    is [repetition] alone, and the frame read from the store has one row
    for each distinct [repetition] value; but the call returns no table:
    the post-processing loop raises [KeyError] for the elided column
    [nCars]. *)
Theorem get_vector_group_by :
  (forall (by_ variable : pyval) (nby : dict (list pyval))
          (time module : bool) (filter_ : option (joined_row -> bool))
          (f : aggregate_fn) (sd : bool) (stmt : statement),
      normalize_by by_ = Ok nby ->
      get_vector_statement nby variable time module filter_ (Some f) sd
      = Ok stmt ->
      stmt_group_by stmt
      = keys (filter (fun kv => negb (Nat.eqb (List.length (snd kv)) 1))
                     nby))
  /\ (forall (engine : database) (f : aggregate_fn),
         exists stmt cells aggregated,
           get_vector_statement
             [("nCars", [PInt 320]); ("repetition", [])]
             (PList [PStr "collisions"]) false false None (Some f) false
           = Ok stmt
           /\ stmt_group_by stmt = ["repetition"]
           /\ read_sql real_text stmt engine
              = Ok [ {| s_name := "repetition"; s_dtype := Inferred;
                        s_cells := cells |};
                     {| s_name := agg_name f ++ "_1"; s_dtype := Inferred;
                        s_cells := aggregated |} ]
           /\ NoDup cells
           /\ forall c,
                In c cells
                <-> exists row,
                      In row (selected_rows real_text stmt engine)
                      /\ eval_column (AttrValue "repetition") row = c)
  /\ (forall (filters : list warning_filter) (engine : database)
             (run : bool) (f : aggregate_fn),
         snd (get_vector real_text astype_native filters engine
                (PDict [(PStr "nCars", PInt 320);
                        (PStr "repetition", PList [])])
                (PStr "collisions") false run false None (Some f) false)
         = Raise (KeyError "nCars")).
Proof.
  split; [|split].
  - intros by_ variable nby time module filter_ f sd stmt Hn Hs.
    apply get_vector_statement_ok in Hs.
    destruct Hs as [queries [attrs [n [Hq [_ [_ [_ [_ Hg]]]]]]]].
    pose proof (normalize_by_nodup _ _ Hn) as Hnd.
    rewrite (group_by_attributes_filter nby nby queries Hnd (incl_refl _)
               (attribute_subqueries_keys _ _ _ Hq)) in Hg.
    now inversion Hg.
  - intros engine f. eexists. eexists. eexists.
    split; [reflexivity|]. split; [reflexivity|]. split; [reflexivity|].
    apply group_by_one_row_per_value.
  - intros. unfold get_vector. cbn [snd].
    change (normalize_by (PDict [(PStr "nCars", PInt 320);
                                 (PStr "repetition", PList [])]))
      with (Ok [("nCars", [PInt 320]); ("repetition", @nil pyval)]).
    cbn [bind normalize_variable].
    assert (get_vector_statement [("nCars", [PInt 320]); ("repetition", [])]
              (PList [PStr "collisions"]) false false None (Some f) false
            = Ok {| stmt_select := [AttrValue "repetition"; Aggregated f];
                    stmt_from :=
                      [("nCars", {| af_attrName := "nCars";
                                    af_values := Some [PInt 320] |});
                       ("repetition", {| af_attrName := "repetition";
                                         af_values := None |})];
                    stmt_where := [VectorNameIn [PStr "collisions"]];
                    stmt_group_by := ["repetition"] |}) as -> by reflexivity.
    cbn [bind]. unfold read_sql.
    cbn [statement_params stmt_from stmt_where stmt_select flat_map
         af_values snd app].
    change (forallb bindable [PInt 320; PStr "collisions"]) with true.
    cbn [bind map cast_attributes].
    rewrite cast_attribute_missing; [reflexivity|].
    cbn [columns map s_name label].
    intros [C|[C|[]]]; [discriminate|].
    now apply anonymous_label_not_nCars in C.
Qed.

(** C6 (as amended): a [by] that is not a string, a list of strings or a
    dictionary from strings to [None], scalars or lists of scalars makes
    [normalize_by] raise [TypeError], and [get_vector] raises that error on
    every store and with every other argument, so before a statement is
    built or read; every [by] of an accepted shape, a filter of [None]
    included, is normalized.  [normalize_variable] checks nothing: it wraps
    a string and returns everything else as it is. *)
Theorem get_vector_rejects_malformed_by (by_ : pyval) :
  (accepted_by by_ = false ->
   exists msg,
     normalize_by by_ = Raise (TypeError msg)
     /\ forall (filters : list warning_filter) (engine : database)
               (variable : pyval) (time run module : bool)
               (filter_ : option (joined_row -> bool))
               (aggregate : option aggregate_fn) (sd : bool),
          snd (get_vector real_text astype_native filters engine by_
                 variable time run module filter_ aggregate sd)
          = Raise (TypeError msg))
  /\ (accepted_by by_ = true -> exists nby, normalize_by by_ = Ok nby)
  /\ (forall variable,
         match variable with
         | PStr _ => normalize_variable variable = PList [variable]
         | _ => normalize_variable variable = variable
         end).
Proof.
  split; [|split].
  - intros H. destruct (normalize_by_rejected by_ H) as [E|E].
    + eexists. split; [exact E|]. intros. unfold get_vector. cbn [snd].
      rewrite E. reflexivity.
    + eexists. split; [exact E|]. intros. unfold get_vector. cbn [snd].
      rewrite E. reflexivity.
  - apply normalize_by_accepted.
  - intros variable. destruct variable; reflexivity.
Qed.

Lemma df_getitem_present (df : dataframe) (key : string)
    (cols : list series) :
  df_getitem df key = Ok cols -> In key (columns df).
Proof.
  unfold df_getitem.
  destruct (filter (fun s => String.eqb (s_name s) key) df) as [|s cols']
    eqn:E; [discriminate|]. intros _.
  assert (In s (filter (fun s => String.eqb (s_name s) key) df)) as Hin
    by (rewrite E; now left).
  apply filter_In in Hin. destruct Hin as [Hin Hs].
  apply String.eqb_eq in Hs. subst key. unfold columns. now apply in_map.
Qed.

(** A loop that completes has found a column for every attribute. *)
Lemma cast_attributes_present (items : list (string * list pyval))
    (df df' : dataframe) (a : string) :
  cast_attributes astype_native df items = Ok df' ->
  In a (keys items) -> In a (columns df).
Proof.
  revert df. induction items as [|[attr vals] items IH]; simpl; intros df H Hin;
    [tauto|].
  apply bind_ok in H. destruct H as [df1 [H1 H]].
  destruct Hin as [->|Hin].
  - unfold cast_attribute in H1. apply bind_ok in H1.
    destruct H1 as [cols [Hc _]]. now apply df_getitem_present in Hc.
  - specialize (IH df1 H Hin).
    apply cast_attribute_ok in H1.
    destruct H1 as [first [rest [dt [_ [_ H1]]]]].
    now rewrite <- (assign_astype_columns _ _ _ _ H1).
Qed.

(** C9: installing the warning suppression is idempotent.  A second
    application leaves the filters as the first one left them, with no
    further entry, also when the two applications are those of two calls
    of [get_vector]. *)
Theorem ignore_decimal_warning_idempotent (filters : list warning_filter) :
  _ignore_decimal_warning (_ignore_decimal_warning filters)
  = _ignore_decimal_warning filters
  /\ List.length (_ignore_decimal_warning (_ignore_decimal_warning filters))
     = List.length (_ignore_decimal_warning filters)
  /\ forall (engine1 engine2 : database) (by1 by2 variable1 variable2 : pyval)
            (time1 time2 run1 run2 module1 module2 : bool)
            (filter1 filter2 : option (joined_row -> bool))
            (aggregate1 aggregate2 : option aggregate_fn) (sd1 sd2 : bool),
       fst (get_vector real_text astype_native
              (fst (get_vector real_text astype_native filters engine1 by1
                      variable1 time1 run1 module1 filter1 aggregate1 sd1))
              engine2 by2 variable2 time2 run2 module2 filter2 aggregate2
              sd2)
       = fst (get_vector real_text astype_native filters engine1 by1
                variable1 time1 run1 module1 filter1 aggregate1 sd1).
Proof.
  assert (_ignore_decimal_warning (_ignore_decimal_warning filters)
          = _ignore_decimal_warning filters) as E
    by apply filterwarnings_front_idempotent.
  split; [exact E|]. split; [now rewrite E|].
  intros. unfold get_vector. cbn [fst]. exact E.
Qed.

End Properties.

(** * Examples: the theorems at concrete calls *)

Lemma normalize_by_canonical_witness :
  is_scalar (PInt 320) = true
  /\ normalize_by (PDict [(PStr "nCars", PInt 320)])
     = Ok [("nCars", [PInt 320])]
  /\ forallb is_scalar [PStr "200"; PStr "100"; PStr "300"] = true
  /\ normalize_by
       (PDict [(PStr "nCars", PList [PStr "200"; PStr "100"; PStr "300"])])
     = Ok [("nCars", [PStr "200"; PStr "100"; PStr "300"])].
Proof.
  destruct (normalize_by_canonical "nCars") as [_ [_ [_ [_ [Hs Hl]]]]].
  split; [reflexivity|]. split; [apply Hs; reflexivity|].
  split; [reflexivity|]. apply Hl. reflexivity.
Defined.

Lemma get_vector_rejects_malformed_by_witness :
  accepted_by (PTuple [PStr "nCars"]) = false
  /\ (exists msg,
         normalize_by (PTuple [PStr "nCars"]) = Raise (TypeError msg)
         /\ snd (example_get_vector [] example_store (PTuple [PStr "nCars"])
                   (PStr "collisions") false false false None None false)
            = Raise (TypeError msg))
  /\ accepted_by (PDict [(PStr "nCars", PNone)]) = true
  /\ exists nby, normalize_by (PDict [(PStr "nCars", PNone)]) = Ok nby.
Proof.
  split; [reflexivity|]. split.
  - destruct (get_vector_rejects_malformed_by example_real_text
                example_astype_native (PTuple [PStr "nCars"])) as [H _].
    destruct (H eq_refl) as [msg [Hn Hg]].
    exists msg. split; [exact Hn | apply Hg].
  - split; [reflexivity|].
    destruct (get_vector_rejects_malformed_by example_real_text
                example_astype_native (PDict [(PStr "nCars", PNone)]))
      as [_ [H _]].
    apply H. reflexivity.
Defined.

(** C6, against the claim as stated: a filter of [None] is normalized, not
    rejected, and a [variable] that is a list of integers is not rejected
    either: the statement is built and read and the call returns a frame. *)
Lemma get_vector_accepts_null_filter_and_malformed_variable :
  is_scalar PNone = false
  /\ normalize_by (PDict [(PStr "nCars", PNone)]) = Ok [("nCars", [])]
  /\ all_str [PInt 1; PInt 2] = None
  /\ normalize_variable (PList [PInt 1; PInt 2]) = PList [PInt 1; PInt 2]
  /\ snd (example_get_vector [] example_store
            (PDict [(PStr "nCars", PList [PStr "160"; PStr "320"])])
            (PList [PInt 1; PInt 2]) false false false None None false)
     = Ok [ {| s_name := "nCars";
               s_dtype := Categorical [PStr "160"; PStr "320"] true;
               s_cells := [] |};
            {| s_name := "vectorName"; s_dtype := Inferred; s_cells := [] |};
            {| s_name := "value"; s_dtype := Inferred; s_cells := [] |} ].
Proof. repeat split; reflexivity. Qed.

Lemma get_unique_param_single_or_missing_witness :
  get_unique_param example_store "penetration" py_bool = Ok (PBool true)
  /\ get_unique_param example_store "nCars" (fun x => Ok x) = Ok PNone.
Proof.
  split.
  - destruct (get_unique_param_single_or_missing example_store "penetration"
                py_bool) as [H _].
    rewrite (H "0.5"); [reflexivity | |].
    + eexists. split; [left; reflexivity | reflexivity].
    + intros r [<-|[<-|[<-|[<-|[]]]]]; cbn; intros E;
        try reflexivity; discriminate E.
  - destruct (get_unique_param_single_or_missing example_store "nCars"
                (fun x => Ok x)) as [_ H].
    apply H.
    intros r [<-|[<-|[<-|[<-|[]]]]]; reflexivity.
Defined.

(** C8, against the claim as stated: a lookup that matches nothing does not
    fail when the conversion accepts [None], and a lookup that matches two
    distinct values does not fail either: it returns the first. *)
Lemma get_unique_param_no_failure :
  select_distinct_parValue example_store "%nCars" = []
  /\ get_unique_param example_store "nCars" py_bool = Ok (PBool false)
  /\ select_distinct_parValue example_store "%sendInterval" = ["1"; "2"]
  /\ get_unique_param example_store "sendInterval" (fun x => Ok x)
     = Ok (PStr "1").
Proof. repeat split; reflexivity. Qed.

Lemma get_vector_group_by_witness :
  normalize_by (PDict [(PStr "nCars", PInt 320);
                       (PStr "repetition", PList [])])
  = Ok [("nCars", [PInt 320]); ("repetition", [])]
  /\ exists stmt,
       get_vector_statement [("nCars", [PInt 320]); ("repetition", [])]
         (PList [PStr "collisions"]) false false None (Some avg) false
       = Ok stmt
       /\ stmt_group_by stmt = ["repetition"].
Proof.
  split; [reflexivity|].
  destruct (get_vector_group_by example_real_text example_astype_native)
    as [H _].
  eexists. split; [reflexivity|].
  exact (H (PDict [(PStr "nCars", PInt 320); (PStr "repetition", PList [])])
           (PList [PStr "collisions"])
           [("nCars", [PInt 320]); ("repetition", [])]
           false false None avg false _ eq_refl eq_refl).
Defined.

(** * Further properties of the module *)

(** ** The normalizer *)

Lemma dict_set_In_keys {V : Type} (d : dict V) (k a : string) (v : V) :
  In a (keys (dict_set d k v)) <-> In a (keys d) \/ a = k.
Proof.
  rewrite dict_set_keys.
  destruct (existsb (String.eqb k) (keys d)) eqn:E.
  - apply existsb_eqb_In in E. split; [tauto|]. intros [H| ->]; assumption.
  - rewrite in_app_iff. simpl. split; intros [H|H]; try tauto.
    + destruct H as [<-|[]]. now right.
    + subst. right. now left.
Qed.

Lemma unconstrained_In_keys (names : list string)
    (acc : dict (list pyval)) (a : string) :
  In a (keys (fold_left (fun d attr => dict_set d attr []) names acc))
  <-> In a (keys acc) \/ In a names.
Proof.
  revert acc. induction names as [|n names IH]; intros acc; simpl.
  - tauto.
  - rewrite IH, dict_set_In_keys. split.
    + intros [[H| ->]|H]; tauto.
    + intros [H|[->|H]]; tauto.
Qed.

Lemma normalize_items_In_keys (items : list (string * pyval))
    (acc d : dict (list pyval)) (a : string) :
  normalize_items acc items = Ok d ->
  In a (keys d) <-> In a (keys acc) \/ In a (map fst items).
Proof.
  revert acc. induction items as [|[attr f] items IH]; simpl; intros acc H.
  - inversion H; subst. tauto.
  - apply bind_ok in H. destruct H as [vals [_ H]].
    rewrite (IH _ H), dict_set_In_keys. split.
    + intros [[H1| ->]|H1]; tauto.
    + intros [H1|[->|H1]]; tauto.
Qed.

Lemma all_str_In (xs : list pyval) (names : list string) (a : string) :
  all_str xs = Some names -> In a names <-> In (PStr a) xs.
Proof.
  intros H. apply all_str_some in H. subst xs. rewrite in_map_iff. split.
  - intros Ha. now exists a.
  - intros [x [E Hx]]. inversion E; now subst.
Qed.

(** X1: a normalized grouping is a dictionary: its keys are distinct, and
    they are exactly the names the caller gave, as the string itself, as
    the strings of the list, or as the keys of the dictionary. *)
Theorem normalize_by_keys (by_ : pyval) (d : dict (list pyval)) :
  normalize_by by_ = Ok d ->
  NoDup (keys d)
  /\ forall a,
       In a (keys d)
       <-> match by_ with
           | PStr name => a = name
           | PList attrs => In (PStr a) attrs
           | PDict items => In (PStr a) (map fst items)
           | _ => False
           end.
Proof.
  intros H. split; [now apply normalize_by_nodup with (by_ := by_)|].
  intros a. destruct by_; simpl in H; try discriminate.
  - inversion H; subst. simpl. split; [intros [<-|[]]; reflexivity|].
    intros ->. now left.
  - destruct (all_str items) as [names|] eqn:E; [|discriminate].
    inversion H; subst. unfold unconstrained.
    rewrite unconstrained_In_keys, (all_str_In _ _ a E). simpl. tauto.
  - destruct (all_str (map fst items)) as [names|] eqn:E; [|discriminate].
    rewrite (normalize_items_In_keys _ _ _ a H).
    pose proof (all_str_some _ _ E) as Hk.
    assert (map fst (combine names (map snd items)) = names) as Hc.
    { clear H E. revert names Hk.
      induction items as [|[k f] items IH]; intros [|n names] Hk;
        simpl in *; try discriminate; [reflexivity|].
      inversion Hk. f_equal. now apply IH. }
    rewrite Hc, (all_str_In _ _ a E). simpl. tauto.
Qed.

(** X2: which error a malformed [by] raises.  A dictionary whose keys are
    all strings and one of whose filters is malformed raises the filter
    error; a dictionary with a key that is no string raises the [by]
    error, whatever its filters are; so does a list with an element that
    is no string, and every value that is no string, list or dictionary. *)
Theorem normalize_by_error_precedence :
  (forall items,
      forallb (fun kv => is_str (fst kv)) items = true ->
      forallb (fun kv => accepted_filter (snd kv)) items = false ->
      normalize_by (PDict items) = Raise filter_error)
  /\ (forall items,
         forallb (fun kv => is_str (fst kv)) items = false ->
         normalize_by (PDict items) = Raise by_error)
  /\ (forall attrs,
         forallb is_str attrs = false ->
         normalize_by (PList attrs) = Raise by_error)
  /\ (forall by_,
         match by_ with
         | PStr _ | PList _ | PDict _ => True
         | _ => normalize_by by_ = Raise by_error
         end).
Proof.
  assert (forall xs, forallb is_str xs = false -> all_str xs = None) as Hnone.
  { intros xs H. destruct (all_str xs) as [names|] eqn:E; [|reflexivity].
    assert (forallb is_str xs = true) as C
      by (apply all_str_is_str; now exists names).
    congruence. }
  assert (forall items : list (pyval * pyval),
             forallb is_str (map fst items)
             = forallb (fun kv => is_str (fst kv)) items) as Hmap.
  { induction items as [|kv items IH]; simpl; [reflexivity | now rewrite IH]. }
  split; [|split; [|split]].
  - intros items Hk Hf. simpl.
    rewrite <- Hmap in Hk. apply all_str_is_str in Hk.
    destruct Hk as [names E]. rewrite E.
    apply normalize_items_rejected.
    now rewrite (accepted_filters_combine items names (all_str_some _ _ E)).
  - intros items Hk. simpl. rewrite <- Hmap in Hk.
    now rewrite (Hnone _ Hk).
  - intros attrs Hk. simpl. now rewrite (Hnone _ Hk).
  - intros by_. destruct by_; try exact I; reflexivity.
Qed.

Section MoreProperties.

Variable real_text : Q -> string.
Variable astype_native : pytype -> list cell -> result (list cell).

(** ** The columns of the frame *)

Lemma select_attributes_filter (by_ entries : dict (list pyval))
    (queries : dict attr_filter) (sd : bool) :
  NoDup (keys by_) -> incl entries by_ -> keys queries = keys entries ->
  select_attributes by_ queries sd
  = Ok (map AttrValue (kept_attributes entries sd)).
Proof.
  intros Hnd. revert queries.
  induction entries as [|[a vals] entries IH]; intros [|[a' q] queries] Hin Hk;
    simpl in *; try discriminate; [reflexivity|].
  inversion Hk; subst.
  rewrite (dict_getitem_item by_ a vals Hnd) by (apply Hin; now left).
  simpl. rewrite IH; [|intros x Hx; apply Hin; now right | assumption].
  simpl. unfold kept_attributes. simpl.
  now destruct (Nat.eqb (List.length vals) 1 && negb sd).
Qed.

Lemma statement_labels (nby : dict (list pyval)) (variable : pyval)
    (time module : bool) (filter_ : option (joined_row -> bool))
    (aggregate : option aggregate_fn) (sd : bool) (stmt : statement) :
  NoDup (keys nby) ->
  get_vector_statement nby variable time module filter_ aggregate sd
  = Ok stmt ->
  exists n,
    py_len variable = Ok n
    /\ stmt_select stmt
       = (map AttrValue (kept_attributes nby sd)
          ++ (if time then [Simtime] else [])
          ++ (if module then [ModuleName] else [])
          ++ (if negb (Nat.eqb n 1 && negb sd) then [VectorName] else [])
          ++ [match aggregate with
              | Some f => Aggregated f
              | None => Value
              end])%list
    /\ map label (stmt_select stmt)
       = (kept_attributes nby sd
          ++ fixed_columns time module (negb (Nat.eqb n 1 && negb sd))
               aggregate)%list.
Proof.
  intros Hnd Hs. apply get_vector_statement_ok in Hs.
  destruct Hs as [queries [attrs [n [Hq [Ha [Hn [Hsel _]]]]]]].
  rewrite (select_attributes_filter nby nby queries sd Hnd (incl_refl _)
             (attribute_subqueries_keys _ _ _ Hq)) in Ha.
  inversion Ha; subst attrs. exists n. split; [assumption|].
  split; [assumption|]. rewrite Hsel.
  rewrite map_app, map_map. simpl. rewrite map_id. f_equal.
  unfold fixed_columns.
  destruct time, module, (negb (Nat.eqb n 1 && negb sd)), aggregate;
    reflexivity.
Qed.

(** X3: the columns of a returned frame, in order: the grouping
    attributes that are not elided, in the order of the grouping; then
    [simtime] if [time]; then [moduleName] if [module]; then [vectorName]
    unless one variable is requested and the result need not be
    self-descriptive; then the value column. *)
Theorem get_vector_column_layout (filters : list warning_filter)
    (engine : database) (by_ variable : pyval) (time run module : bool)
    (filter_ : option (joined_row -> bool))
    (aggregate : option aggregate_fn) (sd : bool)
    (nby : dict (list pyval)) (df : dataframe) :
  normalize_by by_ = Ok nby ->
  snd (get_vector real_text astype_native filters engine by_ variable time
         run module filter_ aggregate sd) = Ok df ->
  exists n,
    py_len (normalize_variable variable) = Ok n
    /\ columns df
       = (kept_attributes nby sd
          ++ fixed_columns time module (negb (Nat.eqb n 1 && negb sd))
               aggregate)%list.
Proof.
  intros Hn Hdf.
  apply get_vector_columns in Hdf.
  destruct Hdf as [nby' [stmt [Hn' [Hs Hc]]]].
  rewrite Hn in Hn'. inversion Hn'; subst nby'.
  destruct (statement_labels _ _ _ _ _ _ _ _
              (normalize_by_nodup _ _ Hn) Hs) as [n [Hlen [_ Hl]]].
  exists n. split; [assumption|]. now rewrite Hc.
Qed.

(** X4: a [variable] that has no length ([None], a [bool], an [int] or a
    [float]) makes the call raise the [TypeError] of [len], on every store
    and before the store is read, when [by] itself is well-formed. *)
Theorem get_vector_variable_without_len (filters : list warning_filter)
    (engine : database) (by_ variable : pyval) (time run module : bool)
    (filter_ : option (joined_row -> bool))
    (aggregate : option aggregate_fn) (sd : bool)
    (nby : dict (list pyval)) :
  normalize_by by_ = Ok nby ->
  match variable with
  | PNone | PBool _ | PInt _ | PFloat _ => True
  | _ => False
  end ->
  snd (get_vector real_text astype_native filters engine by_ variable time
         run module filter_ aggregate sd)
  = Raise (TypeError ("object of type '" ++ type_name (type_of variable)
                      ++ "' has no len()")).
Proof.
  intros Hn Hv. unfold get_vector. cbn [snd]. rewrite Hn. cbn [bind].
  pose proof (normalize_by_nodup _ _ Hn) as Hnd.
  destruct (attribute_subqueries_total nby (keys nby) (incl_refl _))
    as [queries Hq].
  unfold get_vector_statement. rewrite Hq. cbn [bind].
  rewrite (select_attributes_filter nby nby queries sd Hnd (incl_refl _)
             (attribute_subqueries_keys _ _ _ Hq)).
  cbn [bind].
  destruct variable; try contradiction; reflexivity.
Qed.

End MoreProperties.

Section Postprocessing.

Variable real_text : Q -> string.
Variable astype_native : pytype -> list cell -> result (list cell).

Lemma dict_item_unique {V : Type} (d : dict V) (k : string) (v v' : V) :
  NoDup (keys d) -> In (k, v) d -> In (k, v') d -> v = v'.
Proof.
  intros Hnd H H'.
  pose proof (dict_getitem_item d k v Hnd H) as E.
  rewrite (dict_getitem_item d k v' Hnd H') in E. now inversion E.
Qed.

Lemma kept_attributes_In (by_ : dict (list pyval)) (sd : bool) (a : string) :
  In a (kept_attributes by_ sd)
  <-> exists vals,
        In (a, vals) by_
        /\ (Nat.eqb (List.length vals) 1 && negb sd) = false.
Proof.
  unfold kept_attributes, keys. rewrite in_map_iff. split.
  - intros [[a' vals] [E H]]. simpl in E. subst a'.
    apply filter_In in H. destruct H as [H Hc]. exists vals.
    split; [assumption|]. simpl in Hc. now apply negb_true_iff in Hc.
  - intros [vals [H Hc]]. exists (a, vals). split; [reflexivity|].
    apply filter_In. split; [assumption|]. simpl. now rewrite Hc.
Qed.

(** X5: what a call that returns a frame had to satisfy.  Every grouping
    attribute has a non-empty filter list and a column of its name in the
    frame; and an attribute that was elided (one filter value, result not
    self-descriptive) can only have found such a column because its name
    is that of one of the fixed columns.  So a call that elides an
    attribute of any other name returns no frame. *)
Theorem get_vector_returns_only_if (filters : list warning_filter)
    (engine : database) (by_ variable : pyval) (time run module : bool)
    (filter_ : option (joined_row -> bool))
    (aggregate : option aggregate_fn) (sd : bool)
    (nby : dict (list pyval)) (df : dataframe) (a : string)
    (vals : list pyval) :
  normalize_by by_ = Ok nby ->
  snd (get_vector real_text astype_native filters engine by_ variable time
         run module filter_ aggregate sd) = Ok df ->
  In (a, vals) nby ->
  vals <> []
  /\ In a (columns df)
  /\ (List.length vals = 1%nat -> sd = false ->
      exists n,
        py_len (normalize_variable variable) = Ok n
        /\ In a (fixed_columns time module (negb (Nat.eqb n 1 && true))
                   aggregate)).
Proof.
  intros Hn Hdf Hin.
  pose proof (normalize_by_nodup _ _ Hn) as Hnd.
  pose proof Hdf as Hok. apply get_vector_ok in Hok.
  destruct Hok as [nby' [stmt [df0 [Hn' [Hs [Hr Hc]]]]]].
  rewrite Hn in Hn'. inversion Hn'; subst nby'.
  assert (In a (columns df)) as Hcol.
  { rewrite (cast_attributes_columns _ _ _ _ Hc).
    apply (cast_attributes_present _ _ _ _ a Hc).
    change a with (fst (a, vals)). now apply in_map. }
  split; [|split; [exact Hcol|]].
  - intros ->.
    destruct (cast_attributes_unconstrained astype_native nby df0 a Hin)
      as [e He].
    congruence.
  - intros Hlen ->.
    destruct (statement_labels _ _ _ _ _ _ _ _ Hnd Hs)
      as [n [Hpl [_ Hl]]].
    exists n. split; [assumption|].
    rewrite (cast_attributes_columns _ _ _ _ Hc),
      (read_sql_columns _ _ _ _ Hr), Hl in Hcol.
    apply in_app_or in Hcol. destruct Hcol as [Hk|Hf]; [|exact Hf].
    apply kept_attributes_In in Hk. destruct Hk as [vals' [Hin' Hcond]].
    rewrite (dict_item_unique nby a vals' vals Hnd Hin' Hin), Hlen in Hcond.
    discriminate.
Qed.

(** The number of columns of a name, and with it the dtype an assignment
    stores, depends on the names of the columns only. *)
Lemma stored_dtype_columns (df df' : dataframe) (key : string) (dt : dtype) :
  columns df = columns df' -> stored_dtype df key dt = stored_dtype df' key dt.
Proof.
  intros E. unfold stored_dtype. destruct dt; try reflexivity.
  assert (forall d : dataframe,
             List.length (filter (fun s => String.eqb (s_name s) key) d)
             = List.length (filter (fun n => String.eqb n key) (columns d)))
    as Hcount.
  { induction d as [|s d IH]; [reflexivity|]. simpl.
    destruct (String.eqb (s_name s) key); simpl; now rewrite IH. }
  now rewrite (Hcount df), (Hcount df'), E.
Qed.

Lemma assign_astype_source (df df' : dataframe) (key : string) (dt : dtype) :
  assign_astype astype_native df key dt = Ok df' ->
  forall s, In s df' -> s_name s = key ->
            exists s0 c, In s0 df /\ s_name s0 = key
                         /\ astype astype_native dt s0 = Ok c
                         /\ s = with_dtype (stored_dtype df key dt) c.
Proof.
  unfold assign_astype. generalize (stored_dtype df key dt) as stored.
  intros stored. revert df'. induction df as [|s1 df IH]; intros df' H.
  - inversion H; subst. simpl. tauto.
  - apply assign_columns_cons in H.
    destruct H as [s' [tail [-> [Hr Hs]]]]. intros s [<-|Hin] Hname.
    + destruct Hs as [[E [c [Hc ->]]]|[E ->]].
      * apply String.eqb_eq in E. exists s1, c.
        split; [now left|]. now repeat split.
      * apply String.eqb_neq in E. congruence.
    + destruct (IH tail Hr s Hin Hname) as [s0 [c [H0 [Hn0 [Ha Hw]]]]].
      exists s0, c. split; [now right|]. now repeat split.
Qed.

(** The frame the loop returns, seen from a column named [a]: the column
    was converted once, when the loop came to [a], from a column of the
    frame the loop started with. *)
Lemma cast_attributes_source (items : list (string * list pyval))
    (df df' : dataframe) (a : string) (first : pyval) (rest : list pyval) :
  NoDup (keys items) ->
  In (a, first :: rest) items ->
  cast_attributes astype_native df items = Ok df' ->
  forall s, In s df' -> s_name s = a ->
    exists s0 dt c,
      In s0 df /\ s_name s0 = a
      /\ (if pytype_eqb (type_of first) TStr
          then CategoricalDtype (first :: rest) true
          else Ok (Native (type_of first))) = Ok dt
      /\ astype astype_native dt s0 = Ok c
      /\ s = with_dtype (stored_dtype df a dt) c.
Proof.
  revert df. induction items as [|[attr vals] items IH]; simpl;
    intros df Hnd Hin H; [tauto|].
  inversion Hnd as [|? ? Hnot Hnd']; subst.
  apply bind_ok in H. destruct H as [df1 [H1 H]].
  apply cast_attribute_ok in H1.
  destruct H1 as [v [vs [dt [Ev [Hdt H1]]]]].
  intros s Hs Hname.
  destruct Hin as [E|Hin].
  - injection E as -> ->. injection Ev as <- <-.
    pose proof (cast_attributes_others _ _ _ _ _ Hnot H s Hs Hname) as Hs1.
    destruct (assign_astype_source _ _ _ _ H1 s Hs1 Hname)
      as [s0 [c [H0 [Hn0 [Ha Hw]]]]].
    now exists s0, dt, c.
  - destruct (IH df1 Hnd' Hin H s Hs Hname)
      as [s0 [dt' [c [H0 [Hn0 [Hd [Ha Hw]]]]]]].
    exists s0, dt', c. split; [|repeat split; try assumption].
    + apply (assign_astype_others _ _ _ _ _ H1); [assumption|].
      rewrite Hn0. intros C. apply Hnot. subst attr.
      change a with (fst (a, first :: rest)). now apply in_map.
    + rewrite Hw. f_equal. apply stored_dtype_columns.
      now apply assign_astype_columns in H1.
Qed.

(** X6: the other branch of the cast.  When the call returns a frame, the
    column of an attribute whose filter list starts with an [int], a
    [float] or a [bool] has been converted to that native type: to the
    type of the first value only, whatever the types of the others. *)
Theorem get_vector_native_cast (filters : list warning_filter)
    (engine : database) (by_ variable : pyval) (time run module : bool)
    (filter_ : option (joined_row -> bool))
    (aggregate : option aggregate_fn) (sd : bool)
    (nby : dict (list pyval)) (df : dataframe) (a : string)
    (first : pyval) (rest : list pyval) :
  normalize_by by_ = Ok nby ->
  snd (get_vector real_text astype_native filters engine by_ variable time
         run module filter_ aggregate sd) = Ok df ->
  In (a, first :: rest) nby ->
  is_str first = false ->
  forall s, In s df -> s_name s = a ->
    s_dtype s = Native (type_of first)
    /\ exists cells,
         astype_native (type_of first) cells = Ok (s_cells s).
Proof.
  intros Hn Hdf Hin Hfirst s Hs Hname.
  apply get_vector_ok in Hdf.
  destruct Hdf as [nby' [stmt [df0 [Hn' [_ [_ Hc]]]]]].
  rewrite Hn in Hn'. inversion Hn'; subst nby'.
  destruct (cast_attributes_source nby df0 df a first rest
              (normalize_by_nodup _ _ Hn) Hin Hc s Hs Hname)
    as [s0 [dt [c [_ [_ [Hdt [Ha ->]]]]]]].
  assert (pytype_eqb (type_of first) TStr = false) as E
    by (destruct first; try reflexivity; discriminate).
  rewrite E in Hdt. inversion Hdt; subst dt. simpl in Ha.
  apply bind_ok in Ha. destruct Ha as [cells [Hcells Ha]].
  inversion Ha; subst. simpl. split; [reflexivity | now exists (s_cells s0)].
Qed.

End Postprocessing.

Section Rows.

Variable real_text : Q -> string.
Variable astype_native : pytype -> list cell -> result (list cell).

(** ** The rows a statement selects *)

Lemma in_spec (x : string) (vals : list pyval) :
  in_ real_text x vals = true
  <-> exists v, In v vals /\ sql_text real_text v = Some x.
Proof.
  unfold in_. rewrite existsb_exists. split.
  - intros [v [Hv E]]. exists v. split; [assumption|].
    destruct (sql_text real_text v) as [t|]; [|discriminate].
    apply String.eqb_eq in E. now subst.
  - intros [v [Hv E]]. exists v. split; [assumption|].
    rewrite E. apply String.eqb_refl.
Qed.

(** The rows of the subquery built for a grouping attribute. *)
Lemma subquery_rows_spec (db : database) (by_ : dict (list pyval))
    (a : string) (vals : list pyval) (q : attr_filter) (r : runattr_row) :
  dict_getitem by_ a = Ok vals ->
  attribute_filter_expression by_ a = Ok q ->
  In r (subquery_rows real_text db q)
  <-> In r (tbl_runattr db)
      /\ ra_attrName r = a
      /\ (vals = []
          \/ exists v, In v vals
                       /\ sql_text real_text (_map_python_value v)
                          = Some (ra_attrValue r)).
Proof.
  intros Hv Hq. unfold attribute_filter_expression in Hq.
  rewrite Hv in Hq. simpl in Hq. inversion Hq; subst q; clear Hq.
  unfold subquery_rows. rewrite filter_In. simpl.
  rewrite andb_true_iff, String.eqb_eq.
  destruct vals as [|v0 vals'].
  - split; [intros [H [H1 _]]; tauto | intros [H [H1 _]]; tauto].
  - rewrite in_spec. split.
    + intros [H [H1 [v [Hin E]]]]. split; [assumption|].
      split; [assumption|]. right.
      apply in_map_iff in Hin. destruct Hin as [w [<- Hw]]. now exists w.
    + intros [H [H1 [C|[w [Hw E]]]]]; [discriminate|].
      split; [assumption|]. split; [assumption|].
      exists (_map_python_value w). split; [|assumption].
      now apply in_map.
Qed.

(** X7: the rows of the subquery built for a grouping attribute.  They
    are the attribute rows of that name; and when the filter list is not
    empty, those among them whose value is the text of one of the filter
    values, where a [bool] counts as its lower-case name, as the database
    writes it, and a string as itself. *)
Theorem attribute_subquery_rows (db : database) (by_ : dict (list pyval))
    (a : string) (vals : list pyval) (q : attr_filter) :
  dict_getitem by_ a = Ok vals ->
  attribute_filter_expression by_ a = Ok q ->
  (forall r,
      In r (subquery_rows real_text db q)
      <-> In r (tbl_runattr db)
          /\ ra_attrName r = a
          /\ (vals = []
              \/ exists v, In v vals
                           /\ sql_text real_text (_map_python_value v)
                              = Some (ra_attrValue r)))
  /\ (forall b, sql_text real_text (_map_python_value (PBool b))
                = Some (if b then "true" else "false"))
  /\ (forall s, sql_text real_text (_map_python_value (PStr s)) = Some s).
Proof.
  intros Hv Hq. split; [|split].
  - intros r. exact (subquery_rows_spec db by_ a vals q r Hv Hq).
  - intros [|]; reflexivity.
  - reflexivity.
Qed.

Lemma statement_where (nby : dict (list pyval)) (variable : pyval)
    (time module : bool) (filter_ : option (joined_row -> bool))
    (aggregate : option aggregate_fn) (sd : bool) (stmt : statement) :
  get_vector_statement nby variable time module filter_ aggregate sd
  = Ok stmt ->
  exists names,
    py_iter variable = Ok names
    /\ stmt_where stmt
       = (match filter_ with
          | Some p => [Custom p]
          | None => []
          end ++ [VectorNameIn names])%list.
Proof.
  unfold get_vector_statement. intros H.
  apply bind_ok in H. destruct H as [queries [Hq H]].
  apply bind_ok in H. destruct H as [attrs [Ha H]].
  apply bind_ok in H. destruct H as [n [Hn H]].
  apply bind_ok in H. destruct H as [names [Hi H]].
  apply bind_ok in H. destruct H as [gb [Hg H]].
  inversion H; subst; clear H. simpl. now exists names.
Qed.

(** X8: the rows the statement selects are samples of the requested
    variables only, and they all satisfy the caller's [filter_]; with one
    variable given as a string, every row is a sample of a vector of
    exactly that name. *)
Theorem get_vector_rows_requested (db : database) (nby : dict (list pyval))
    (variable : pyval) (time module : bool)
    (filter_ : option (joined_row -> bool))
    (aggregate : option aggregate_fn) (sd : bool) (stmt : statement)
    (row : joined_row) :
  get_vector_statement nby (normalize_variable variable) time module filter_
    aggregate sd = Ok stmt ->
  In row (selected_rows real_text stmt db) ->
  (exists names v,
      py_iter (normalize_variable variable) = Ok names
      /\ In v names
      /\ sql_text real_text v = Some (vec_vectorName (jr_vector row)))
  /\ match filter_ with
     | Some p => p row = true
     | None => True
     end
  /\ (forall name, variable = PStr name ->
                   vec_vectorName (jr_vector row) = name).
Proof.
  intros Hs Hrow. destruct (statement_where _ _ _ _ _ _ _ _ Hs)
    as [names [Hi Hw]].
  unfold selected_rows in Hrow. apply filter_In in Hrow.
  destruct Hrow as [_ Hall]. rewrite Hw, forallb_app in Hall.
  apply andb_true_iff in Hall. destruct Hall as [Hf Hv].
  simpl in Hv. rewrite andb_true_r in Hv. apply in_spec in Hv.
  destruct Hv as [v [Hin E]].
  split; [now exists names, v|]. split.
  - destruct filter_ as [p|]; [|exact I]. simpl in Hf.
    now rewrite andb_true_r in Hf.
  - intros name ->. simpl in Hi. inversion Hi; subst names.
    destruct Hin as [<-|[]]. simpl in E. now inversion E.
Qed.

Lemma base_rows_spec (db : database) (row : joined_row) :
  In row (base_rows db) ->
  jr_attrs row = []
  /\ In (jr_run row) (tbl_run db)
  /\ In (jr_vector row) (tbl_vector db)
  /\ vec_runId (jr_vector row) = run_runId (jr_run row)
  /\ In (jr_data row) (tbl_vectordata db)
  /\ vd_vectorId (jr_data row) = vec_vectorId (jr_vector row).
Proof.
  unfold base_rows. intros H.
  apply in_flat_map in H. destruct H as [r [Hr H]].
  apply in_flat_map in H. destruct H as [v [Hv H]].
  destruct (vec_runId v =? run_runId r) eqn:E; [|destruct H].
  apply in_map_iff in H. destruct H as [d [<- Hd]].
  apply filter_In in Hd. destruct Hd as [Hd Ed]. simpl.
  apply Z.eqb_eq in E, Ed. tauto.
Qed.

(** What the joins add to a row: one attribute row of the same run from
    each subquery, in the order of the subqueries. *)
Lemma join_rows_spec (db : database) (queries : dict attr_filter)
    (rows0 : list joined_row) (row : joined_row) :
  In row (fold_left (join_subquery real_text db) queries rows0) ->
  exists row0 rs,
    In row0 rows0
    /\ jr_run row = jr_run row0
    /\ jr_vector row = jr_vector row0
    /\ jr_data row = jr_data row0
    /\ Forall2 (fun entry r =>
                  In r (subquery_rows real_text db (snd entry))
                  /\ ra_runId r = run_runId (jr_run row0))
               queries rs
    /\ jr_attrs row
       = (jr_attrs row0
          ++ map (fun er => (fst (fst er), ra_attrValue (snd er)))
                 (combine queries rs))%list.
Proof.
  revert rows0. induction queries as [|entry queries IH]; simpl; intros rows0 H.
  - exists row, []. repeat split; try assumption; try constructor.
    now rewrite app_nil_r.
  - destruct (IH _ H) as [row1 [rs [H1 [Er [Ev [Ed [HF Ea]]]]]]].
    unfold join_subquery in H1.
    apply in_flat_map in H1. destruct H1 as [row0 [H0 H1]].
    apply in_map_iff in H1. destruct H1 as [r [<- Hr]].
    apply filter_In in Hr. destruct Hr as [Hr Eid]. apply Z.eqb_eq in Eid.
    simpl in *.
    exists row0, (r :: rs). repeat split; try assumption.
    + constructor; [now split | assumption].
    + rewrite Ea, <- app_assoc. reflexivity.
Qed.

Lemma joined_attribute_lookup (P : string * attr_filter -> runattr_row -> Prop)
    (queries : dict attr_filter) (rs : list runattr_row) (a : string)
    (q : attr_filter) :
  Forall2 P queries rs ->
  NoDup (keys queries) ->
  In (a, q) queries ->
  exists r,
    P (a, q) r
    /\ dict_getitem (map (fun er : (string * attr_filter) * runattr_row =>
                            (fst (fst er), ra_attrValue (snd er)))
                         (combine queries rs)) a
       = Ok (ra_attrValue r).
Proof.
  intros HF. induction HF as [|[a' q'] r queries rs HP HF IH]; simpl;
    intros Hnd Hin; [tauto|].
  inversion Hnd as [|? ? Hnot Hnd']; subst.
  destruct Hin as [E|Hin].
  - inversion E; subst. exists r. split; [assumption|].
    now rewrite String.eqb_refl.
  - destruct (IH Hnd' Hin) as [r' [HP' E]]. exists r'. split; [assumption|].
    destruct (String.eqb a' a) eqn:Ea; [|assumption].
    apply String.eqb_eq in Ea. subst a'. exfalso. apply Hnot.
    change a with (fst (a, q)). now apply in_map.
Qed.

Lemma attribute_subqueries_In (by_ : dict (list pyval))
    (attributes : list string) (queries : dict attr_filter) (a : string) :
  attribute_subqueries by_ attributes = Ok queries ->
  In a attributes ->
  exists q, In (a, q) queries /\ attribute_filter_expression by_ a = Ok q.
Proof.
  revert queries. induction attributes as [|a' attrs IH]; simpl;
    intros queries H Hin; [tauto|].
  apply bind_ok in H. destruct H as [e [He H]].
  apply bind_ok in H. destruct H as [qs [Hq H]].
  inversion H; subst; clear H. destruct Hin as [->|Hin].
  - exists e. split; [now left | assumption].
  - destruct (IH qs Hq Hin) as [q [H1 H2]]. exists q.
    split; [now right | assumption].
Qed.

(** The attribute row the join gave a selected row for one grouping
    attribute. *)
Lemma selected_row_attribute (db : database) (by_ variable : pyval)
    (nby : dict (list pyval)) (time module : bool)
    (filter_ : option (joined_row -> bool))
    (aggregate : option aggregate_fn) (sd : bool) (stmt : statement)
    (row : joined_row) (a : string) (vals : list pyval) :
  normalize_by by_ = Ok nby ->
  get_vector_statement nby variable time module filter_ aggregate sd
  = Ok stmt ->
  In row (selected_rows real_text stmt db) ->
  In (a, vals) nby ->
  exists r,
    In r (tbl_runattr db)
    /\ ra_runId r = run_runId (jr_run row)
    /\ ra_attrName r = a
    /\ eval_column (AttrValue a) row = CText (ra_attrValue r)
    /\ (vals = []
        \/ exists v, In v vals
                     /\ sql_text real_text (_map_python_value v)
                        = Some (ra_attrValue r)).
Proof.
  intros Hn Hs Hrow Hin.
  pose proof (normalize_by_nodup _ _ Hn) as Hnd.
  apply get_vector_statement_ok in Hs.
  destruct Hs as [queries [attrs [n [Hq [_ [_ [_ [Hfrom _]]]]]]]].
  unfold selected_rows in Hrow. apply filter_In in Hrow.
  destruct Hrow as [Hrow _]. rewrite Hfrom in Hrow.
  apply join_rows_spec in Hrow.
  destruct Hrow as [row0 [rs [H0 [Er [Ev [Ed [HF Ea]]]]]]].
  apply base_rows_spec in H0. destruct H0 as [Ha0 _].
  destruct (attribute_subqueries_In nby (keys nby) queries a Hq)
    as [q [Hinq Hfe]].
  { change a with (fst (a, vals)). now apply in_map. }
  assert (NoDup (keys queries)) as Hndq
    by now rewrite (attribute_subqueries_keys _ _ _ Hq).
  destruct (joined_attribute_lookup _ queries rs a q HF Hndq Hinq)
    as [r [[Hsub Hid] Hget]].
  simpl in Hsub.
  apply (subquery_rows_spec db nby a vals q r
           (dict_getitem_item nby a vals Hnd Hin) Hfe) in Hsub.
  destruct Hsub as [Hr1 [Hr2 Hr3]].
  exists r. rewrite Er. repeat split; try assumption.
  simpl. rewrite Ea, Ha0. simpl. now rewrite Hget.
Qed.

(** X9: every row the statement selects is a sample of a vector of a run
    of the store, joined with one attribute row of that same run for each
    grouping attribute.  The attribute's column carries the value of that
    row, and when the attribute has a filter list the value is the text of
    one of the filter values: a run without such an attribute row gives no
    row at all. *)
Theorem get_vector_rows_joined (db : database) (by_ variable : pyval)
    (nby : dict (list pyval)) (time module : bool)
    (filter_ : option (joined_row -> bool))
    (aggregate : option aggregate_fn) (sd : bool) (stmt : statement)
    (row : joined_row) :
  normalize_by by_ = Ok nby ->
  get_vector_statement nby variable time module filter_ aggregate sd
  = Ok stmt ->
  In row (selected_rows real_text stmt db) ->
  (In (jr_run row) (tbl_run db)
   /\ In (jr_vector row) (tbl_vector db)
   /\ vec_runId (jr_vector row) = run_runId (jr_run row)
   /\ In (jr_data row) (tbl_vectordata db)
   /\ vd_vectorId (jr_data row) = vec_vectorId (jr_vector row))
  /\ forall a vals,
       In (a, vals) nby ->
       exists r,
         In r (tbl_runattr db)
         /\ ra_runId r = run_runId (jr_run row)
         /\ ra_attrName r = a
         /\ eval_column (AttrValue a) row = CText (ra_attrValue r)
         /\ (vals = []
             \/ exists v, In v vals
                          /\ sql_text real_text (_map_python_value v)
                             = Some (ra_attrValue r)).
Proof.
  intros Hn Hs Hrow. split.
  - pose proof Hs as Hok. apply get_vector_statement_ok in Hok.
    destruct Hok as [queries [attrs [n [_ [_ [_ [_ [Hfrom _]]]]]]]].
    unfold selected_rows in Hrow. apply filter_In in Hrow.
    destruct Hrow as [Hrow _]. rewrite Hfrom in Hrow.
    apply join_rows_spec in Hrow.
    destruct Hrow as [row0 [rs [H0 [Er [Ev [Ed _]]]]]].
    apply base_rows_spec in H0. rewrite Er, Ev, Ed. tauto.
  - intros a vals Hin.
    exact (selected_row_attribute db by_ variable nby time module filter_
             aggregate sd stmt row a vals Hn Hs Hrow Hin).
Qed.

End Rows.

Section Categories.

Variable real_text : Q -> string.
Variable astype_native : pytype -> list cell -> result (list cell).

Lemma forallb_is_str_In (vals : list pyval) (v : pyval) :
  forallb is_str vals = true -> In v vals -> exists x, v = PStr x.
Proof.
  intros H Hin. rewrite forallb_forall in H. specialize (H v Hin).
  destruct v; try discriminate. now eexists.
Qed.

Lemma py_eqb_str_In (x : string) (vals : list pyval) :
  In (PStr x) vals -> existsb (py_eqb (PStr x)) vals = true.
Proof.
  intros H. apply existsb_exists. exists (PStr x). split; [assumption|].
  simpl. apply String.eqb_refl.
Qed.

(** X10: filtering and casting fit together.  In a frame returned by a
    call without aggregate, the column of an attribute whose filter list
    holds strings only has no missing value: every cell is the text of one
    of the filter values, so the categorical conversion found each value
    among its categories.  (The attribute must not bear the name of one of
    the fixed columns.) *)
Theorem get_vector_categories_cover (filters : list warning_filter)
    (engine : database) (by_ variable : pyval) (time run module : bool)
    (filter_ : option (joined_row -> bool)) (sd : bool)
    (nby : dict (list pyval)) (df : dataframe) (a : string)
    (vals : list pyval) :
  normalize_by by_ = Ok nby ->
  snd (get_vector real_text astype_native filters engine by_ variable time
         run module filter_ None sd) = Ok df ->
  In (a, vals) nby ->
  forallb is_str vals = true ->
  ~ In a ["simtime"; "moduleName"; "vectorName"; "value"] ->
  forall s, In s df -> s_name s = a ->
    forall c, In c (s_cells s) -> exists x, c = CText x /\ In (PStr x) vals.
Proof.
  intros Hn Hdf Hin Hstr Hfixed s Hs Hname c Hc.
  pose proof (normalize_by_nodup _ _ Hn) as Hnd.
  apply get_vector_ok in Hdf.
  destruct Hdf as [nby' [stmt [df0 [Hn' [Hst [Hr Hcast]]]]]].
  rewrite Hn in Hn'. inversion Hn'; subst nby'.
  destruct vals as [|first rest].
  { destruct (cast_attributes_unconstrained astype_native nby df0 a Hin)
      as [e He]. congruence. }
  destruct (cast_attributes_source astype_native nby df0 df a first rest
              Hnd Hin Hcast s Hs Hname)
    as [s0 [dt [cast [Hs0 [Hn0 [Hdt [Ha Hw]]]]]]].
  destruct (forallb_is_str_In _ first Hstr (or_introl eq_refl)) as [f0 Ef].
  subst first. simpl in Hdt. unfold CategoricalDtype in Hdt.
  destruct (py_unique (PStr f0 :: rest)); [|discriminate].
  inversion Hdt; subst dt; clear Hdt. simpl in Ha.
  inversion Ha; subst cast; clear Ha. subst s. simpl in Hc.
  apply in_map_iff in Hc. destruct Hc as [c0 [Ec Hc0]].
  (* the column of the frame that was read *)
  destruct (statement_labels _ _ _ _ _ _ _ _ Hnd Hst)
    as [n [_ [Hsel _]]].
  unfold read_sql in Hr.
  destruct (forallb bindable (statement_params stmt)); [|discriminate].
  inversion Hr; subst df0; clear Hr.
  apply in_map_iff in Hs0. destruct Hs0 as [col [Es0 Hcol]].
  subst s0. simpl in Hn0, Hc0.
  assert (existsb is_aggregated (stmt_select stmt) = false) as Hagg.
  { rewrite Hsel. rewrite existsb_app.
    assert (forall ks, existsb is_aggregated (map AttrValue ks) = false) as E
      by (induction ks; simpl; auto).
    rewrite E. now destruct time, module, (negb (Nat.eqb n 1 && negb sd)). }
  rewrite Hagg in Hc0.
  assert (col = AttrValue a) as ->.
  { rewrite Hsel in Hcol. apply in_app_or in Hcol.
    destruct Hcol as [Hcol|Hcol].
    - apply in_map_iff in Hcol. destruct Hcol as [a' [<- _]].
      simpl in Hn0. now subst a'.
    - apply (fixed_columns_labels time module _ None) in Hcol.
      destruct Hcol as [_ [Hl|[f [Ef _]]]]; [|discriminate].
      rewrite Hn0 in Hl. contradiction. }
  apply in_map_iff in Hc0. destruct Hc0 as [row [Erow Hrow]].
  destruct (selected_row_attribute real_text engine by_
              (normalize_variable variable) nby time module filter_ None sd
              stmt row a (PStr f0 :: rest) Hn Hst Hrow Hin)
    as [r [_ [_ [_ [Ecell Hv]]]]].
  destruct Hv as [C|[v [Hv Et]]]; [discriminate|].
  destruct (forallb_is_str_In _ v Hstr Hv) as [x Ex]. subst v.
  simpl in Et. inversion Et; subst x.
  rewrite Ecell in Erow.
  exists (ra_attrValue r). split; [|assumption].
  rewrite <- Ec, <- Erow. simpl cell_value.
  pose proof (py_eqb_str_In _ _ Hv) as E. cbn [existsb] in E.
  now rewrite E.
Qed.

End Categories.

(** ** More on [get_unique_param] *)

Lemma filter_first {A : Type} (f : A -> bool) (l : list A) :
  (filter f l = [] /\ forall x, In x l -> f x = false)
  \/ exists before x after,
       l = (before ++ x :: after)%list
       /\ (forall y, In y before -> f y = false)
       /\ f x = true
       /\ filter f l = x :: filter f after.
Proof.
  induction l as [|a l IH]; simpl.
  - left. split; [reflexivity | tauto].
  - destruct (f a) eqn:E.
    + right. exists [], a, l. repeat split; try assumption. simpl. tauto.
    + destruct IH as [[Hnil Hall]|[before [x [after [El [Hb [Hx Hf]]]]]]].
      * left. split; [assumption|]. intros x [<-|Hx]; auto.
      * right. exists (a :: before), x, after. repeat split; try assumption.
        -- simpl. now rewrite El.
        -- intros y [<-|Hy]; auto.
Qed.

(** X11: [get_unique_param] raises nothing of its own.  Its result is the
    requested conversion, applied to [None] when no parameter name matches
    and otherwise to the value of the first matching row of the parameter
    table, however many distinct values the matching rows hold; so with a
    conversion that does not raise, the call does not raise. *)
Theorem get_unique_param_outcome (con : database) (name : string)
    (type : pyval -> result pyval) :
  (((forall r, In r (tbl_runparam con) ->
               like ("%" ++ name) (rp_parName r) = false)
    /\ get_unique_param con name type = type PNone)
   \/ exists before r after,
        tbl_runparam con = (before ++ r :: after)%list
        /\ (forall r', In r' before ->
                       like ("%" ++ name) (rp_parName r') = false)
        /\ like ("%" ++ name) (rp_parName r) = true
        /\ get_unique_param con name type = type (PStr (rp_parValue r)))
  /\ ((forall x, exists y, type x = Ok y) ->
      exists y, get_unique_param con name type = Ok y).
Proof.
  split.
  - unfold get_unique_param, select_distinct_parValue.
    destruct (filter_first (fun r => like ("%" ++ name) (rp_parName r))
                (tbl_runparam con))
      as [[Hnil Hall]|[before [r [after [El [Hb [Hr Hf]]]]]]].
    + left. split; [assumption|]. now rewrite Hnil.
    + right. exists before, r, after. repeat split; try assumption.
      now rewrite Hf.
  - intros Htotal. unfold get_unique_param. apply Htotal.
Qed.

Lemma like_literal (p : ascii) (p' s : string) :
  Ascii.eqb p "%" = false ->
  like (String p p') s
  = match s with
    | EmptyString => false
    | String c s' => like_char p c && like p' s'
    end.
Proof. intros H. simpl. now rewrite H. Qed.

(** Patterns and strings that match piecewise match when put together. *)
Lemma like_app (p1 s1 p2 s2 : string) :
  like p1 s1 = true -> like p2 s2 = true ->
  like (p1 ++ p2) (s1 ++ s2) = true.
Proof.
  revert s1. induction p1 as [|p p1 IH]; intros s1 H1 H2.
  - destruct s1; [exact H2 | discriminate H1].
  - cbn [append]. destruct (Ascii.eqb p "%") eqn:E.
    + apply Ascii.eqb_eq in E. subst p.
      induction s1 as [|c s1 IHs]; rewrite like_percent in H1;
        rewrite like_percent; apply orb_true_iff in H1.
      * destruct H1 as [H1|H1]; [|discriminate].
        now rewrite (IH EmptyString H1 H2).
      * cbn [append]. destruct H1 as [H1|H1].
        -- pose proof (IH (String c s1) H1 H2) as G. cbn [append] in G.
           now rewrite G.
        -- rewrite (IHs H1). apply orb_true_r.
    + rewrite like_literal in H1 by assumption.
      rewrite like_literal by assumption.
      destruct s1 as [|c s1]; [discriminate|]. cbn [append].
      apply andb_true_iff in H1. destruct H1 as [Hc H1].
      now rewrite Hc, (IH s1 H1 H2).
Qed.

(** X12: the requested name is used as a [LIKE] pattern, so an underscore
    in it stands for any one character and a percent sign for any run of
    characters: the lookup also takes the values of parameters whose names
    differ from the requested name at those places. *)
Theorem get_unique_param_wildcards (con : database)
    (prefix pre post : string) (r : runparam_row) :
  In r (tbl_runparam con) ->
  (forall c,
      rp_parName r = prefix ++ pre ++ String c post ->
      In (rp_parValue r)
         (select_distinct_parValue con ("%" ++ pre ++ "_" ++ post)))
  /\ (forall mid,
         rp_parName r = prefix ++ pre ++ mid ++ post ->
         In (rp_parValue r)
            (select_distinct_parValue con ("%" ++ pre ++ "%" ++ post))).
Proof.
  intros Hin. split.
  - intros c Hname. unfold select_distinct_parValue.
    apply distinct_In, in_map, filter_In. split; [assumption|].
    rewrite Hname. apply like_percent_skip.
    apply like_app; [apply like_refl|].
    change ("_" ++ post) with (String "_" post).
    rewrite like_literal by reflexivity.
    now rewrite like_refl.
  - intros mid Hname. unfold select_distinct_parValue.
    apply distinct_In, in_map, filter_In. split; [assumption|].
    rewrite Hname. apply like_percent_skip.
    apply like_app; [apply like_refl|].
    apply like_percent_skip, like_refl.
Qed.

(** ** More on the warning filters *)

Lemma option_string_eqb_eq (a b : option string) :
  option_string_eqb a b = true -> a = b.
Proof.
  destruct a, b; simpl; try discriminate; [|reflexivity].
  intros H. apply String.eqb_eq in H. now subst.
Qed.

Lemma warning_filter_eqb_eq (a b : warning_filter) :
  warning_filter_eqb a b = true -> a = b.
Proof.
  unfold warning_filter_eqb. intros H.
  repeat (apply andb_true_iff in H; destruct H as [H ?]).
  destruct a, b; simpl in *.
  apply String.eqb_eq in H.
  match goal with H : (_ =? _)%Z = true |- _ => apply Z.eqb_eq in H end.
  repeat match goal with
         | H : option_string_eqb _ _ = true |- _ =>
             apply option_string_eqb_eq in H
         | H : String.eqb _ _ = true |- _ => apply String.eqb_eq in H
         end.
  now subst.
Qed.

Lemma remove_first_others (item : warning_filter)
    (filters : list warning_filter) :
  filter (fun f => negb (warning_filter_eqb f item))
         (remove_first item filters)
  = filter (fun f => negb (warning_filter_eqb f item)) filters.
Proof.
  induction filters as [|f filters IH]; simpl; [reflexivity|].
  destruct (warning_filter_eqb f item) eqn:E; simpl; [reflexivity|].
  now rewrite E, IH.
Qed.

(** X17: what the suppression does to the other warning filters: nothing.
    After [_ignore_decimal_warning] the suppressing entry is the first of
    the list, and the entries other than it are those that were there, in
    the same order. *)
Theorem ignore_decimal_warning_keeps_others (filters : list warning_filter) :
  hd_error (_ignore_decimal_warning filters) = Some decimal_warning_filter
  /\ filter (fun f => negb (warning_filter_eqb f decimal_warning_filter))
            (_ignore_decimal_warning filters)
     = filter (fun f => negb (warning_filter_eqb f decimal_warning_filter))
              filters
  /\ forall f, In f (_ignore_decimal_warning filters)
               <-> f = decimal_warning_filter \/ In f filters.
Proof.
  unfold _ignore_decimal_warning, filterwarnings.
  fold decimal_warning_filter.
  split; [reflexivity|]. split.
  - cbn [filter]. rewrite warning_filter_eqb_refl. cbn [negb].
    apply remove_first_others.
  - intros f. cbn [In]. split.
    + intros [<-|H]; [now left|]. right.
      induction filters as [|g filters IH]; simpl in H; [destruct H|].
      destruct (warning_filter_eqb g decimal_warning_filter);
        [now right|].
      destruct H as [<-|H]; [now left | right; now apply IH].
    + intros [->|H]; [now left|].
      induction filters as [|g filters IH]; [destruct H|]. simpl.
      destruct (warning_filter_eqb g decimal_warning_filter) eqn:E.
      * apply warning_filter_eqb_eq in E. subst g.
        destruct H as [<-|H]; [now left | now right].
      * destruct H as [<-|H]; [right; now left|].
        destruct (IH H) as [G|G]; [now left | right; now right].
Qed.

(** ** Database values and [get_iterationvars] *)

Lemma dict_getitem_set {V : Type} (d : dict V) (k k' : string) (v : V) :
  dict_getitem (dict_set d k v) k'
  = if String.eqb k k' then Ok v else dict_getitem d k'.
Proof.
  induction d as [|[k0 v0] d IH]; simpl.
  - reflexivity.
  - destruct (String.eqb k0 k) eqn:E0; simpl.
    + apply String.eqb_eq in E0. subst k0.
      now destruct (String.eqb k k').
    + rewrite IH. destruct (String.eqb k0 k') eqn:E1; [|reflexivity].
      apply String.eqb_eq in E1. subst k'. now rewrite String.eqb_sym, E0.
Qed.

(** A dictionary built by a comprehension [{k: f(k) for k in names}] *)
Lemma comprehension_spec {V : Type} (f : string -> V) (names : list string)
    (acc : dict V) :
  NoDup (keys acc) ->
  (forall k v, dict_getitem acc k = Ok v -> v = f k) ->
  let d := fold_left (fun d var => dict_set d var (f var)) names acc in
  NoDup (keys d)
  /\ (forall k v, dict_getitem d k = Ok v -> v = f k)
  /\ (forall a, In a (keys d) <-> In a (keys acc) \/ In a names).
Proof.
  revert acc. induction names as [|n names IH]; intros acc Hnd Hf; simpl.
  - repeat split; try assumption; tauto.
  - destruct (IH (dict_set acc n (f n))) as [H1 [H2 H3]].
    + now apply dict_set_nodup.
    + intros k v. rewrite dict_getitem_set.
      destruct (String.eqb n k) eqn:E.
      * apply String.eqb_eq in E. subst k. now inversion 1.
      * apply Hf.
    + repeat split; try assumption.
      * intros H. apply H3 in H. rewrite dict_set_In_keys in H.
        destruct H as [[H| ->]|H]; tauto.
      * intros H. apply H3. rewrite dict_set_In_keys.
        destruct H as [H|[<-|H]]; tauto.
Qed.

Lemma comprehension_fresh {V : Type} (f : string -> V) (names : list string)
    (acc : dict V) :
  NoDup (keys acc ++ names) ->
  fold_left (fun d var => dict_set d var (f var)) names acc
  = (acc ++ map (fun n => (n, f n)) names)%list.
Proof.
  revert acc. induction names as [|n names IH]; intros acc H; simpl.
  - now rewrite app_nil_r.
  - assert (~ In n (keys acc)) as Hn.
    { apply NoDup_remove_2 in H. intros Hin. apply H.
      apply in_or_app. now left. }
    rewrite dict_set_fresh by assumption.
    rewrite IH.
    + now rewrite <- app_assoc.
    + unfold keys. rewrite map_app. simpl. rewrite <- app_assoc. exact H.
Qed.

Lemma split_cons (c c' : ascii) (rest : string) :
  split_comma_space (String c (String c' rest))
  = if Ascii.eqb c "," && Ascii.eqb c' " "
    then EmptyString :: split_comma_space rest
    else push c (split_comma_space (String c' rest)).
Proof. reflexivity. Qed.

Lemma has_comma_space_cons (c c' : ascii) (rest : string) :
  has_comma_space (String c (String c' rest))
  = (Ascii.eqb c "," && Ascii.eqb c' " ")
    || has_comma_space (String c' rest).
Proof. reflexivity. Qed.

Lemma split_no_separator (p : string) :
  has_comma_space p = false -> split_comma_space p = [p].
Proof.
  induction p as [|c p IH]; [reflexivity|].
  destruct p as [|c' p']; [reflexivity|].
  rewrite has_comma_space_cons, split_cons. intros H.
  apply orb_false_iff in H. destruct H as [Hc H].
  rewrite Hc, (IH H). reflexivity.
Qed.

(** The first piece ends at the first separator. *)
Lemma split_at_separator (p rest : string) :
  has_comma_space p = false ->
  split_comma_space (p ++ ", " ++ rest) = p :: split_comma_space rest.
Proof.
  induction p as [|c p IH]; [reflexivity|].
  destruct p as [|c' p'].
  - intros _. cbn [append]. rewrite split_cons.
    replace (Ascii.eqb c "," && Ascii.eqb "," " ") with false
      by (now rewrite andb_false_r).
    rewrite split_cons. reflexivity.
  - rewrite has_comma_space_cons. intros H.
    apply orb_false_iff in H. destruct H as [Hc H].
    specialize (IH H). cbn [append] in IH |- *.
    rewrite split_cons, Hc, IH. reflexivity.
Qed.

(** [split] undoes [join] on pieces that hold no separator. *)
Lemma split_join (entries : list string) :
  entries <> [] ->
  Forall (fun e => has_comma_space e = false) entries ->
  split_comma_space (join_comma_space entries) = entries.
Proof.
  induction entries as [|e entries IH]; [congruence|]. intros _ H.
  inversion H as [|? ? He Hrest]; subst.
  destruct entries as [|e' entries].
  - simpl. now apply split_no_separator.
  - cbn [join_comma_space]. rewrite (split_at_separator _ _ He).
    f_equal. apply IH; [discriminate | assumption].
Qed.

Section Iteration.

Variable int_of_str : string -> option Z.
Variable float_parses : string -> bool.
Variable word_beyond_ascii : ascii -> bool.

(** X13: the two value mappings agree on booleans, and nothing else is
    taken for one.  The text [_map_python_value] writes for a [bool] is
    read back by [_map_database_value] as that [bool]; a value is read as
    a [bool] only if it is [true] or [false], as an [int] only if [int]
    accepts it, and it comes back as a string, unchanged, only if it is
    neither of the two words and neither [int] nor [float] accepts it. *)
Theorem map_database_value_inverts_booleans :
  (forall b, exists t,
      _map_python_value (PBool b) = PStr t
      /\ _map_database_value int_of_str float_parses t = MBool b)
  /\ (forall val b,
         _map_database_value int_of_str float_parses val = MBool b
         <-> val = (if b then "true" else "false"))
  /\ (forall val z,
         _map_database_value int_of_str float_parses val = MInt z ->
         int_of_str val = Some z /\ val <> "true" /\ val <> "false")
  /\ (forall val s,
         _map_database_value int_of_str float_parses val = MStr s ->
         s = val /\ val <> "true" /\ val <> "false"
         /\ int_of_str val = None /\ float_parses val = false).
Proof.
  unfold _map_database_value. split; [|split; [|split]].
  - intros [|]; eexists; split; reflexivity.
  - intros val b.
    destruct (String.eqb val "true") eqn:E1;
      [apply String.eqb_eq in E1; subst val|].
    { destruct b; split; try reflexivity; discriminate. }
    destruct (String.eqb val "false") eqn:E2;
      [apply String.eqb_eq in E2; subst val|].
    { destruct b; split; try reflexivity; discriminate. }
    apply String.eqb_neq in E1, E2.
    split.
    + destruct (int_of_str val); [discriminate|].
      destruct (float_parses val); discriminate.
    + intros ->. destruct b; congruence.
  - intros val z.
    destruct (String.eqb val "true") eqn:E1; [discriminate|].
    destruct (String.eqb val "false") eqn:E2; [discriminate|].
    apply String.eqb_neq in E1, E2.
    destruct (int_of_str val) as [z'|]; [|destruct (float_parses val);
                                           discriminate].
    intros H. inversion H; subst. tauto.
  - intros val s.
    destruct (String.eqb val "true") eqn:E1; [discriminate|].
    destruct (String.eqb val "false") eqn:E2; [discriminate|].
    apply String.eqb_neq in E1, E2.
    destruct (int_of_str val) as [z'|]; [discriminate|].
    destruct (float_parses val); [discriminate|].
    intros H. inversion H; subst. tauto.
Qed.

Lemma is_word_not_comma (c : ascii) :
  is_word word_beyond_ascii c = true -> Ascii.eqb c "," = false.
Proof.
  intros H. destruct (Ascii.eqb c ",") eqn:E; [|reflexivity].
  apply Ascii.eqb_eq in E. subst c. discriminate H.
Qed.

Lemma has_comma_space_skip (c : ascii) (rest : string) :
  Ascii.eqb c "," = false ->
  has_comma_space (String c rest) = has_comma_space rest.
Proof.
  intros H. destruct rest as [|c' rest]; [reflexivity|].
  cbn [has_comma_space]. now rewrite H.
Qed.

Lemma has_comma_space_word (n s : string) :
  string_forallb (is_word word_beyond_ascii) n = true ->
  has_comma_space (n ++ s) = has_comma_space s.
Proof.
  induction n as [|c n IH]; [reflexivity|]. cbn [string_forallb append].
  intros H. apply andb_true_iff in H. destruct H as [Hc H].
  rewrite has_comma_space_skip by now apply is_word_not_comma.
  now apply IH.
Qed.

Lemma entry_no_separator (n v : string) :
  string_forallb (is_word word_beyond_ascii) n = true ->
  has_comma_space v = false ->
  has_comma_space (iterationvar_entry (n, v)) = false.
Proof.
  intros Hn Hv. unfold iterationvar_entry. cbn [fst snd append].
  rewrite has_comma_space_skip by reflexivity.
  rewrite (has_comma_space_word n _ Hn).
  now rewrite has_comma_space_skip by reflexivity.
Qed.

Lemma word_prefix_app (n : string) (e : ascii) (rest : string) :
  string_forallb (is_word word_beyond_ascii) n = true ->
  is_word word_beyond_ascii e = false ->
  word_prefix word_beyond_ascii (n ++ String e rest) = (n, String e rest).
Proof.
  intros Hn He. induction n as [|c n IH]; cbn [append word_prefix].
  - now rewrite He.
  - cbn [string_forallb] in Hn. apply andb_true_iff in Hn.
    destruct Hn as [Hc Hn]. now rewrite Hc, (IH Hn).
Qed.

(** An entry [$name=value] with a name of word characters matches, and
    the group is the name. *)
Lemma match_iterationvar_entry (n v : string) :
  n <> EmptyString ->
  string_forallb (is_word word_beyond_ascii) n = true ->
  match_iterationvar word_beyond_ascii (iterationvar_entry (n, v)) = Some n.
Proof.
  intros Hne Hn. unfold iterationvar_entry, match_iterationvar.
  cbn [fst snd append]. cbn [Ascii.eqb Bool.eqb].
  rewrite (word_prefix_app n "=" v Hn) by reflexivity.
  destruct n; [congruence | reflexivity].
Qed.

Lemma iterationvar_names_entries (nvs : list (string * string)) :
  Forall (fun nv => fst nv <> EmptyString
                    /\ string_forallb (is_word word_beyond_ascii) (fst nv)
                       = true) nvs ->
  iterationvar_names word_beyond_ascii (map iterationvar_entry nvs)
  = Returns (map fst nvs).
Proof.
  induction 1 as [|[n v] nvs [Hne Hn] _ IH]; [reflexivity|].
  cbn [map iterationvar_names]. simpl fst in *.
  now rewrite (match_iterationvar_entry n v Hne Hn), IH.
Qed.

Lemma iterationvar_names_total (entries : list string) :
  (forall e, In e entries ->
             match_iterationvar word_beyond_ascii e <> None) ->
  exists names, iterationvar_names word_beyond_ascii entries = Returns names.
Proof.
  induction entries as [|e entries IH]; intros H; [now eexists|].
  cbn [iterationvar_names].
  destruct (match_iterationvar word_beyond_ascii e) as [var|] eqn:E.
  - destruct IH as [names Hn]; [intros x Hx; apply H; now right|].
    rewrite Hn. now eexists.
  - exfalso. apply (H e); [now left | assumption].
Qed.

Lemma iterationvar_names_raises (entries : list string) (e : string) :
  In e entries -> match_iterationvar word_beyond_ascii e = None ->
  iterationvar_names word_beyond_ascii entries
  = Raises (AttributeError "'NoneType' object has no attribute 'groups'").
Proof.
  induction entries as [|e' entries IH]; intros Hin He; [destruct Hin|].
  cbn [iterationvar_names].
  destruct (match_iterationvar word_beyond_ascii e') as [var|] eqn:E;
    [|reflexivity].
  destruct Hin as [->|Hin]; [congruence|].
  now rewrite (IH Hin He).
Qed.

(** X14: when [get_iterationvars] raises.  Without an attribute row named
    [iterationvars] it raises the [TypeError] of subscripting [None]; when
    an entry of the first such row is not of the form [$name=...], as is
    the single entry of an empty value, it raises the [AttributeError] of
    [None.groups]; in every other case it returns a dictionary. *)
Theorem get_iterationvars_raises (engine : database) :
  ((forall r, In r (tbl_runattr engine) ->
              ra_attrName r <> "iterationvars") ->
   get_iterationvars int_of_str float_parses word_beyond_ascii engine
   = Raises (Exn (TypeError "'NoneType' object is not subscriptable")))
  /\ (forall first rest,
         attr_values engine "iterationvars" = first :: rest ->
         ((exists e, In e (split_comma_space first)
                     /\ match_iterationvar word_beyond_ascii e = None) ->
          get_iterationvars int_of_str float_parses word_beyond_ascii engine
          = Raises (AttributeError
                      "'NoneType' object has no attribute 'groups'"))
         /\ (first = EmptyString ->
             get_iterationvars int_of_str float_parses word_beyond_ascii
               engine
             = Raises (AttributeError
                         "'NoneType' object has no attribute 'groups'"))
         /\ ((forall e, In e (split_comma_space first) ->
                        match_iterationvar word_beyond_ascii e <> None) ->
             exists d,
               get_iterationvars int_of_str float_parses word_beyond_ascii
                 engine = Returns d)).
Proof.
  split.
  - intros Hnone. unfold get_iterationvars, attr_values.
    assert (filter (fun a => String.eqb (ra_attrName a) "iterationvars")
                   (tbl_runattr engine) = []) as E.
    { induction (tbl_runattr engine) as [|r rs IH]; [reflexivity|].
      cbn [filter].
      destruct (String.eqb (ra_attrName r) "iterationvars") eqn:Er.
      - apply String.eqb_eq in Er. exfalso. apply (Hnone r); [now left|].
        assumption.
      - apply IH. intros r' Hr'. apply Hnone. now right. }
    now rewrite E.
  - intros first rest Hrow. unfold get_iterationvars. rewrite Hrow.
    assert ((exists e, In e (split_comma_space first)
                       /\ match_iterationvar word_beyond_ascii e = None) ->
            match iterationvar_names word_beyond_ascii
                    (split_comma_space first) with
            | Returns vars =>
                Returns (fold_left
                           (fun d var =>
                              dict_set d var
                                (iterationvar_values int_of_str float_parses
                                   engine var)) vars [])
            | Raises e => Raises e
            end
            = Raises (AttributeError
                        "'NoneType' object has no attribute 'groups'")) as G.
    { intros [e [Hin He]].
      now rewrite (iterationvar_names_raises _ e Hin He). }
    split; [exact G|]. split.
    + intros ->. apply G. exists EmptyString. split; [now left | reflexivity].
    + intros Hall.
      destruct (iterationvar_names_total _ Hall) as [names Hn].
      rewrite Hn. now eexists.
Qed.

(** X15: the dictionary [get_iterationvars] returns.  Its keys are
    distinct and are the names found in the first [iterationvars] row; and
    looking a name up gives the distinct values of the attribute of that
    name, mapped by [_map_database_value]. *)
Theorem get_iterationvars_lookup (engine : database)
    (d : dict (list mapped_val)) :
  get_iterationvars int_of_str float_parses word_beyond_ascii engine
  = Returns d ->
  NoDup (keys d)
  /\ (forall var,
         In var (keys d) ->
         dict_getitem d var
         = Ok (iterationvar_values int_of_str float_parses engine var))
  /\ exists first rest names,
       attr_values engine "iterationvars" = first :: rest
       /\ iterationvar_names word_beyond_ascii (split_comma_space first)
          = Returns names
       /\ forall a, In a (keys d) <-> In a names.
Proof.
  unfold get_iterationvars.
  destruct (attr_values engine "iterationvars") as [|first rest];
    [discriminate|].
  destruct (iterationvar_names word_beyond_ascii (split_comma_space first))
    as [names|e] eqn:En; [|discriminate].
  intros H. inversion H; subst d; clear H.
  destruct (comprehension_spec
              (iterationvar_values int_of_str float_parses engine) names [])
    as [H1 [H2 H3]]; [constructor | discriminate |].
  split; [exact H1|]. split.
  - intros var Hin.
    destruct (dict_getitem_total _ var Hin) as [v Hv].
    now rewrite Hv, (H2 var v Hv).
  - exists first, rest, names. split; [reflexivity|]. split; [exact En|].
    intros a. split.
    + intros Ha. apply H3 in Ha. simpl in Ha. tauto.
    + intros Ha. apply H3. now right.
Qed.

(** X16: on a well-formed row, [get_iterationvars] finds the variables.
    If the first [iterationvars] row is the entries [$name=value] joined by
    [', '], the names being distinct non-empty words and no value holding
    the separator, the result has one entry per name, in the order of the
    row, with the mapped distinct values of the attribute of that name. *)
Theorem get_iterationvars_well_formed (engine : database)
    (nvs : list (string * string)) (rest : list string) :
  attr_values engine "iterationvars"
  = join_comma_space (map iterationvar_entry nvs) :: rest ->
  nvs <> [] ->
  Forall (fun nv => fst nv <> EmptyString
                    /\ string_forallb (is_word word_beyond_ascii) (fst nv)
                       = true
                    /\ has_comma_space (snd nv) = false) nvs ->
  NoDup (map fst nvs) ->
  get_iterationvars int_of_str float_parses word_beyond_ascii engine
  = Returns (map (fun nv =>
                    (fst nv,
                     iterationvar_values int_of_str float_parses engine
                       (fst nv))) nvs).
Proof.
  intros Hrow Hne Hall Hnd. unfold get_iterationvars. rewrite Hrow.
  rewrite split_join.
  - rewrite iterationvar_names_entries.
    + rewrite comprehension_fresh by assumption. simpl.
      now rewrite map_map.
    + eapply Forall_impl; [|exact Hall]. simpl. tauto.
  - destruct nvs; [congruence | discriminate].
  - apply Forall_map. eapply Forall_impl; [|exact Hall].
    intros [n v] [_ [Hn Hv]]. now apply entry_no_separator.
Qed.

End Iteration.

(** * Examples: the further properties at concrete calls *)

Lemma normalize_by_keys_witness :
  normalize_by (PList [PStr "nCars"; PStr "repetition"; PStr "nCars"])
  = Ok [("nCars", []); ("repetition", [])]
  /\ NoDup (keys [("nCars", @nil pyval); ("repetition", [])])
  /\ (In "repetition" (keys [("nCars", @nil pyval); ("repetition", [])])
      <-> In (PStr "repetition")
             [PStr "nCars"; PStr "repetition"; PStr "nCars"]).
Proof.
  destruct (normalize_by_keys
              (PList [PStr "nCars"; PStr "repetition"; PStr "nCars"])
              [("nCars", []); ("repetition", [])] eq_refl) as [H1 H2].
  split; [reflexivity|]. split; [exact H1 | exact (H2 "repetition")].
Defined.

Lemma normalize_by_error_precedence_witness :
  normalize_by (PDict [(PStr "nCars", PList [PList [PInt 1]])])
  = Raise filter_error
  /\ normalize_by (PDict [(PInt 1, PList [PList [PInt 1]])])
     = Raise by_error
  /\ normalize_by (PList [PStr "nCars"; PInt 1]) = Raise by_error.
Proof.
  destruct normalize_by_error_precedence as [H1 [H2 [H3 _]]].
  split; [apply H1; reflexivity|].
  split; [apply H2; reflexivity | apply H3; reflexivity].
Defined.

Lemma get_vector_column_layout_witness :
  exists df,
    snd (example_get_vector [] example_store
           (PDict [(PStr "nCars", PList [PStr "160"; PStr "320"]);
                   (PStr "repetition", PStr "0")])
           (PStr "collisions") true false true None None true) = Ok df
    /\ exists n,
         py_len (normalize_variable (PStr "collisions")) = Ok n
         /\ columns df
            = (kept_attributes
                 [("nCars", [PStr "160"; PStr "320"]);
                  ("repetition", [PStr "0"])] true
               ++ fixed_columns true true (negb (Nat.eqb n 1 && negb true))
                    None)%list.
Proof.
  eexists. split; [reflexivity|].
  exact (get_vector_column_layout example_real_text example_astype_native
           [] example_store
           (PDict [(PStr "nCars", PList [PStr "160"; PStr "320"]);
                   (PStr "repetition", PStr "0")])
           (PStr "collisions") true false true None None true
           [("nCars", [PStr "160"; PStr "320"]); ("repetition", [PStr "0"])]
           _ eq_refl eq_refl).
Defined.

Lemma get_vector_variable_without_len_witness :
  normalize_by (PStr "nCars") = Ok [("nCars", [])]
  /\ snd (example_get_vector [] example_store (PStr "nCars") (PInt 5)
            false false false None None false)
     = Raise (TypeError "object of type 'int' has no len()").
Proof.
  split; [reflexivity|].
  exact (get_vector_variable_without_len example_real_text
           example_astype_native [] example_store (PStr "nCars") (PInt 5)
           false false false None None false [("nCars", [])] eq_refl I).
Defined.

Lemma get_vector_returns_only_if_witness :
  exists df,
    snd (example_get_vector [] example_store
           (PDict [(PStr "value", PStr "1")]) (PStr "collisions")
           false false false None None false) = Ok df
    /\ [PStr "1"] <> []
    /\ In "value" (columns df)
    /\ (List.length [PStr "1"] = 1%nat -> false = false ->
        exists n,
          py_len (normalize_variable (PStr "collisions")) = Ok n
          /\ In "value"
                (fixed_columns false false (negb (Nat.eqb n 1 && true))
                   None)).
Proof.
  eexists. split; [reflexivity|].
  exact (get_vector_returns_only_if example_real_text example_astype_native
           [] example_store (PDict [(PStr "value", PStr "1")])
           (PStr "collisions") false false false None None false
           [("value", [PStr "1"])] _ "value" [PStr "1"]
           eq_refl eq_refl (or_introl eq_refl)).
Defined.

Lemma get_vector_native_cast_witness :
  exists df,
    snd (get_vector example_real_text decimal_astype_native [] example_store
           (PDict [(PStr "nCars", PList [PInt 160; PInt 320])])
           (PStr "collisions") false false false None None false) = Ok df
    /\ forall s, In s df -> s_name s = "nCars" ->
         s_dtype s = Native TInt
         /\ exists cells, decimal_astype_native TInt cells = Ok (s_cells s).
Proof.
  eexists. split; [reflexivity|].
  exact (get_vector_native_cast example_real_text decimal_astype_native
           [] example_store
           (PDict [(PStr "nCars", PList [PInt 160; PInt 320])])
           (PStr "collisions") false false false None None false
           [("nCars", [PInt 160; PInt 320])] _ "nCars" (PInt 160) [PInt 320]
           eq_refl eq_refl (or_introl eq_refl) eq_refl).
Defined.

Lemma attribute_subquery_rows_witness :
  dict_getitem [("nCars", [PStr "320"])] "nCars" = Ok [PStr "320"]
  /\ forall r,
       In r (subquery_rows example_real_text example_store
               {| af_attrName := "nCars"; af_values := Some [PStr "320"] |})
       <-> In r (tbl_runattr example_store)
           /\ ra_attrName r = "nCars"
           /\ ([PStr "320"] = []
               \/ exists v,
                    In v [PStr "320"]
                    /\ sql_text example_real_text (_map_python_value v)
                       = Some (ra_attrValue r)).
Proof.
  split; [reflexivity|].
  exact (proj1 (attribute_subquery_rows example_real_text example_store
                  [("nCars", [PStr "320"])] "nCars" [PStr "320"]
                  {| af_attrName := "nCars";
                     af_values := Some [PStr "320"] |}
                  eq_refl eq_refl)).
Defined.

Lemma get_vector_rows_requested_witness :
  exists stmt row,
    get_vector_statement [("nCars", [PStr "320"])]
      (normalize_variable (PStr "collisions")) false false None None false
    = Ok stmt
    /\ In row (selected_rows example_real_text stmt example_store)
    /\ vec_vectorName (jr_vector row) = "collisions".
Proof.
  eexists. eexists. split; [reflexivity|].
  assert (In {| jr_run := {| run_runId := 2; run_simtimeExp := -3 |};
                jr_vector := {| vec_vectorId := 11; vec_runId := 2;
                                vec_moduleName := "scenario.manager";
                                vec_vectorName := "collisions" |};
                jr_data := {| vd_vectorId := 11; vd_simtimeRaw := 1000;
                              vd_value := 484 |};
                jr_attrs := [("nCars", "320")] |}
             (selected_rows example_real_text
                {| stmt_select := [Value];
                   stmt_from :=
                     [("nCars", {| af_attrName := "nCars";
                                   af_values := Some [PStr "320"] |})];
                   stmt_where := [VectorNameIn [PStr "collisions"]];
                   stmt_group_by := [] |} example_store)) as Hrow
    by (left; reflexivity).
  split; [exact Hrow|].
  exact (proj2 (proj2 (get_vector_rows_requested example_real_text
                         example_store [("nCars", [PStr "320"])]
                         (PStr "collisions") false false None None false
                         _ _ eq_refl Hrow))
           "collisions" eq_refl).
Defined.

Lemma get_vector_rows_joined_witness :
  exists stmt row,
    get_vector_statement [("nCars", [PStr "320"])]
      (PList [PStr "collisions"]) false false None None false = Ok stmt
    /\ In row (selected_rows example_real_text stmt example_store)
    /\ exists r,
         In r (tbl_runattr example_store)
         /\ ra_runId r = run_runId (jr_run row)
         /\ ra_attrName r = "nCars"
         /\ eval_column (AttrValue "nCars") row = CText (ra_attrValue r)
         /\ ([PStr "320"] = []
             \/ exists v,
                  In v [PStr "320"]
                  /\ sql_text example_real_text (_map_python_value v)
                     = Some (ra_attrValue r)).
Proof.
  eexists. eexists. split; [reflexivity|].
  assert (In {| jr_run := {| run_runId := 2; run_simtimeExp := -3 |};
                jr_vector := {| vec_vectorId := 11; vec_runId := 2;
                                vec_moduleName := "scenario.manager";
                                vec_vectorName := "collisions" |};
                jr_data := {| vd_vectorId := 11; vd_simtimeRaw := 1000;
                              vd_value := 484 |};
                jr_attrs := [("nCars", "320")] |}
             (selected_rows example_real_text
                {| stmt_select := [Value];
                   stmt_from :=
                     [("nCars", {| af_attrName := "nCars";
                                   af_values := Some [PStr "320"] |})];
                   stmt_where := [VectorNameIn [PStr "collisions"]];
                   stmt_group_by := [] |} example_store)) as Hrow
    by (left; reflexivity).
  split; [exact Hrow|].
  exact (proj2 (get_vector_rows_joined example_real_text example_store
                  (PDict [(PStr "nCars", PStr "320")])
                  (PList [PStr "collisions"]) [("nCars", [PStr "320"])]
                  false false None None false _ _ eq_refl eq_refl Hrow)
           "nCars" [PStr "320"] (or_introl eq_refl)).
Defined.

Lemma get_vector_categories_cover_witness :
  exists df,
    snd (example_get_vector [] example_store
           (PDict [(PStr "nCars", PList [PStr "320"; PStr "160"])])
           (PStr "collisions") false false false None None false) = Ok df
    /\ forall s, In s df -> s_name s = "nCars" ->
         forall c, In c (s_cells s) ->
           exists x, c = CText x /\ In (PStr x) [PStr "320"; PStr "160"].
Proof.
  eexists. split; [reflexivity|].
  refine (get_vector_categories_cover example_real_text
            example_astype_native [] example_store
            (PDict [(PStr "nCars", PList [PStr "320"; PStr "160"])])
            (PStr "collisions") false false false None false
            [("nCars", [PStr "320"; PStr "160"])] _ "nCars"
            [PStr "320"; PStr "160"]
            eq_refl eq_refl (or_introl eq_refl) eq_refl _).
  simpl. intros [C|[C|[C|[C|[]]]]]; discriminate C.
Defined.

Lemma get_unique_param_outcome_witness :
  exists y, get_unique_param example_store "sendInterval" py_bool = Ok y.
Proof.
  destruct (get_unique_param_outcome example_store "sendInterval" py_bool)
    as [_ H].
  apply H. intros x. eexists. reflexivity.
Defined.

Lemma get_unique_param_wildcards_witness :
  In "1" (select_distinct_parValue example_store "%send_nterval")
  /\ In "1" (select_distinct_parValue example_store "%**%Interval").
Proof.
  destruct (get_unique_param_wildcards example_store "**.host." "send"
              "nterval"
              {| rp_parName := "**.host.sendInterval"; rp_parValue := "1" |})
    as [H1 _]; [right; right; left; reflexivity|].
  destruct (get_unique_param_wildcards example_store "" "**" "Interval"
              {| rp_parName := "**.host.sendInterval"; rp_parValue := "1" |})
    as [_ H2]; [right; right; left; reflexivity|].
  split; [exact (H1 "I"%char eq_refl) | exact (H2 ".host.send" eq_refl)].
Defined.

Lemma ignore_decimal_warning_keeps_others_witness :
  hd_error (_ignore_decimal_warning []) = Some decimal_warning_filter.
Proof. exact (proj1 (ignore_decimal_warning_keeps_others [])). Defined.

Lemma map_database_value_inverts_booleans_witness :
  _map_database_value decimal_int_of_str no_float "160" = MInt 160
  /\ decimal_int_of_str "160" = Some 160
  /\ _map_database_value decimal_int_of_str no_float "fast" = MStr "fast"
  /\ decimal_int_of_str "fast" = None.
Proof.
  destruct (map_database_value_inverts_booleans decimal_int_of_str no_float)
    as [_ [_ [Hint Hstr]]].
  split; [reflexivity|]. split; [exact (proj1 (Hint "160" 160 eq_refl))|].
  split; [reflexivity|].
  exact (proj1 (proj2 (proj2 (proj2 (Hstr "fast" "fast" eq_refl))))).
Defined.

Lemma get_iterationvars_raises_witness :
  get_iterationvars decimal_int_of_str no_float ascii_words example_store
  = Raises (Exn (TypeError "'NoneType' object is not subscriptable")).
Proof.
  apply (get_iterationvars_raises decimal_int_of_str no_float ascii_words
           example_store).
  intros r [<-|[<-|[<-|[<-|[]]]]]; discriminate.
Defined.

Lemma get_iterationvars_lookup_witness :
  get_iterationvars decimal_int_of_str no_float ascii_words sweep_store
  = Returns [("nCars", [MInt 160; MInt 320]); ("mode", [MStr "fast"])]
  /\ dict_getitem [("nCars", [MInt 160; MInt 320]); ("mode", [MStr "fast"])]
       "mode"
     = Ok (iterationvar_values decimal_int_of_str no_float sweep_store
             "mode").
Proof.
  split; [reflexivity|].
  destruct (get_iterationvars_lookup decimal_int_of_str no_float ascii_words
              sweep_store
              [("nCars", [MInt 160; MInt 320]); ("mode", [MStr "fast"])]
              eq_refl) as [_ [H _]].
  apply H. right. left. reflexivity.
Defined.

Lemma get_iterationvars_well_formed_witness :
  get_iterationvars decimal_int_of_str no_float ascii_words sweep_store
  = Returns
      (map (fun nv =>
              (fst nv,
               iterationvar_values decimal_int_of_str no_float sweep_store
                 (fst nv)))
           [("nCars", "160"); ("mode", "fast")]).
Proof.
  apply (get_iterationvars_well_formed decimal_int_of_str no_float
           ascii_words sweep_store [("nCars", "160"); ("mode", "fast")]
           ["$nCars=320, $mode=fast"]).
  - reflexivity.
  - discriminate.
  - repeat constructor; discriminate.
  - repeat constructor; simpl; intros C; repeat destruct C as [C|C];
      try discriminate C; assumption.
Defined.

(** * When [get_vector] returns *)

Lemma dict_set_In {V : Type} (d : dict V) (k a : string) (v w : V) :
  In (a, w) (dict_set d k v) -> w = v \/ In (a, w) d.
Proof.
  induction d as [|[k0 v0] d IH]; simpl.
  - intros [E|[]]. inversion E. now left.
  - destruct (String.eqb k0 k).
    + intros [E|H]; [inversion E; now left | right; now right].
    + intros [E|H]; [right; now left|].
      destruct (IH H) as [->|H']; [now left | right; now right].
Qed.

Lemma normalize_filter_scalars (f : pyval) (vals : list pyval) :
  normalize_filter f = Ok vals -> forallb is_scalar vals = true.
Proof.
  destruct f; try (intros H; inversion H; reflexivity); try discriminate.
  rewrite normalize_filter_list.
  destruct (forallb is_scalar items) eqn:E; [|discriminate].
  intros H. now inversion H; subst.
Qed.

Lemma normalize_items_scalars (items : list (string * pyval))
    (acc d : dict (list pyval)) :
  (forall a vals, In (a, vals) acc -> forallb is_scalar vals = true) ->
  normalize_items acc items = Ok d ->
  forall a vals, In (a, vals) d -> forallb is_scalar vals = true.
Proof.
  revert acc. induction items as [|[attr f] items IH]; simpl; intros acc Ha H.
  - now inversion H; subst.
  - apply bind_ok in H. destruct H as [vals [Hf H]].
    apply (IH (dict_set acc attr vals)); [|exact H].
    intros a w Hin. apply dict_set_In in Hin.
    destruct Hin as [->|Hin]; [now apply normalize_filter_scalars with f|].
    now apply (Ha a).
Qed.

Lemma unconstrained_values (names : list string) (a : string)
    (vals : list pyval) :
  In (a, vals) (unconstrained names) -> vals = [].
Proof.
  unfold unconstrained.
  assert (forall acc : dict (list pyval),
             (forall a w, In (a, w) acc -> w = []) ->
             forall a w,
               In (a, w) (fold_left (fun d attr => dict_set d attr [])
                                    names acc) -> w = []) as G.
  { induction names as [|n names IH]; simpl; intros acc Ha b w Hin;
      [now apply (Ha b)|].
    apply (IH (dict_set acc n [])) in Hin; [assumption|].
    intros b' w' Hin'. apply dict_set_In in Hin'.
    destruct Hin' as [->|Hin']; [reflexivity | now apply (Ha b')]. }
  apply (G [] (fun _ _ F => False_ind _ F)).
Qed.

(** The filter lists of a normalized grouping hold scalars only. *)
Lemma normalized_scalars (by_ : pyval) (d : dict (list pyval))
    (a : string) (vals : list pyval) :
  normalize_by by_ = Ok d ->
  In (a, vals) d ->
  forallb is_scalar vals = true.
Proof.
  destruct by_; simpl; try discriminate.
  - intros H. inversion H; subst. intros [E|[]]. now inversion E.
  - destruct (all_str items) as [names|]; [|discriminate].
    intros H. inversion H; subst; clear H. intros Hin.
    now rewrite (unconstrained_values names a vals Hin).
  - destruct (all_str (map fst items)) as [names|]; [|discriminate].
    intros H.
    apply (normalize_items_scalars _ [] _ (fun _ _ F => False_ind _ F) H).
Qed.

(** X19: the filter lists of a normalized grouping hold scalars only:
    every value is an [int], a [float], a [bool] or a string, whatever
    shape of [by] the grouping came from; and a grouping that came from a
    string or a list of strings has empty filter lists throughout. *)
Theorem normalize_by_scalars (by_ : pyval) (d : dict (list pyval))
    (a : string) (vals : list pyval) :
  normalize_by by_ = Ok d ->
  In (a, vals) d ->
  forallb is_scalar vals = true
  /\ match by_ with
     | PStr _ | PList _ => vals = []
     | _ => True
     end.
Proof.
  intros Hn Hin. split; [exact (normalized_scalars by_ d a vals Hn Hin)|].
  destruct by_; try exact I; simpl in Hn.
  - inversion Hn; subst. destruct Hin as [E|[]]. now inversion E.
  - destruct (all_str items) as [names|]; [|discriminate].
    inversion Hn; subst. exact (unconstrained_values names a vals Hin).
Qed.

Section Returns.

Variable real_text : Q -> string.
Variable astype_native : pytype -> list cell -> result (list cell).






End Returns.

Lemma normalize_by_scalars_witness :
  normalize_by (PDict [(PStr "nCars", PList [PInt 160; PStr "320"]);
                       (PStr "lossy", PBool true)])
  = Ok [("nCars", [PInt 160; PStr "320"]); ("lossy", [PBool true])]
  /\ forallb is_scalar [PInt 160; PStr "320"] = true.
Proof.
  split; [reflexivity|].
  exact (proj1 (normalize_by_scalars
                  (PDict [(PStr "nCars", PList [PInt 160; PStr "320"]);
                          (PStr "lossy", PBool true)])
                  [("nCars", [PInt 160; PStr "320"]);
                   ("lossy", [PBool true])]
                  "nCars" [PInt 160; PStr "320"] eq_refl
                  (or_introl eq_refl))).
Defined.


(** * The lookup by suffix, the elided columns and the categories *)

(** ** [get_unique_param] matches by suffix *)





Section Elision.

Variable real_text : Q -> string.
Variable astype_native : pytype -> list cell -> result (list cell).

(** ** The attribute of a single value *)

(** C2: the elision of a singular attribute.  For a grouping attribute
    whose normalized filter list has exactly one value, the statement of a
    call with [self_descriptive_result=False] does not select the
    attribute's column; but the call then returns no frame at all: the
    post-processing loop looks the column up in the frame and raises,
    unless the attribute bears the name of one of the fixed columns.  With
    [self_descriptive_result=True] the statement selects the column and
    every frame the call returns has a column of that name.  On every
    store, [get_vector(engine, {'nCars': '320', 'repetition': ['0', '1']},
    'collisions')] raises [KeyError('nCars')]. *)
Theorem get_vector_attribute_elision :
  (forall (filters : list warning_filter) (engine : database)
          (by_ variable : pyval) (time run module : bool)
          (filter_ : option (joined_row -> bool))
          (aggregate : option aggregate_fn) (nby : dict (list pyval))
          (a : string) (vals : list pyval),
      normalize_by by_ = Ok nby ->
      dict_getitem nby a = Ok vals ->
      List.length vals = 1%nat ->
      (forall stmt,
          get_vector_statement nby (normalize_variable variable) time module
            filter_ aggregate false = Ok stmt ->
          ~ In (AttrValue a) (stmt_select stmt))
      /\ (~ In a ["simtime"; "moduleName"; "vectorName"; "value"] ->
          (forall f, aggregate = Some f -> a <> agg_name f ++ "_1") ->
          exists e,
            snd (get_vector real_text astype_native filters engine by_
                   variable time run module filter_ aggregate false)
            = Raise e)
      /\ (forall stmt,
             get_vector_statement nby (normalize_variable variable) time
               module filter_ aggregate true = Ok stmt ->
             In (AttrValue a) (stmt_select stmt))
      /\ (forall df,
             snd (get_vector real_text astype_native filters engine by_
                    variable time run module filter_ aggregate true)
             = Ok df ->
             In a (columns df)))
  /\ (forall (filters : list warning_filter) (engine : database)
              (run : bool),
         snd (get_vector real_text astype_native filters engine
                (PDict [(PStr "nCars", PStr "320");
                        (PStr "repetition", PList [PStr "0"; PStr "1"])])
                (PStr "collisions") false run false None None false)
         = Raise (KeyError "nCars")).
Proof.
  split; [|reflexivity].
  intros filters engine by_ variable time run module filter_ aggregate nby a
    vals Hn Hv Hlen.
  assert (forall stmt,
             get_vector_statement nby (normalize_variable variable) time
               module filter_ aggregate true = Ok stmt ->
             In (AttrValue a) (stmt_select stmt)) as Htrue.
  { intros stmt Hs. apply get_vector_statement_ok in Hs.
    destruct Hs as [queries [attrs [n [Hq [Ha [_ [Hsel _]]]]]]].
    rewrite Hsel. apply in_or_app. left.
    apply (select_attributes_In _ _ _ _ a Ha). split.
    - rewrite (attribute_subqueries_keys _ _ _ Hq).
      now apply dict_getitem_In_keys with (v := vals).
    - exists vals. split; [assumption|]. simpl. apply andb_false_r. }
  assert (forall stmt,
             get_vector_statement nby (normalize_variable variable) time
               module filter_ aggregate false = Ok stmt ->
             ~ In (AttrValue a) (stmt_select stmt)
             /\ (~ In a ["simtime"; "moduleName"; "vectorName"; "value"] ->
                 (forall f, aggregate = Some f -> a <> agg_name f ++ "_1") ->
                 ~ In a (map label (stmt_select stmt)))) as Hfalse.
  { intros stmt Hs. apply get_vector_statement_ok in Hs.
    destruct Hs as [queries [attrs [n [Hq [Ha [_ [Hsel _]]]]]]].
    assert (~ In (AttrValue a) attrs) as Hnot.
    { intros Hin. apply (select_attributes_In _ _ _ _ a Ha) in Hin.
      destruct Hin as [_ [vals' [Hv' E]]].
      rewrite Hv in Hv'. inversion Hv'; subst.
      rewrite Hlen in E. discriminate. }
    split.
    - rewrite Hsel. intros Hin. apply in_app_or in Hin.
      destruct Hin as [Hin|Hin]; [tauto|].
      apply fixed_columns_labels in Hin. destruct Hin as [Hne _].
      now apply (Hne a).
    - intros Hfixed Hagg Hcol. rewrite Hsel in Hcol.
      apply in_map_iff in Hcol. destruct Hcol as [c [Hl Hin]].
      apply in_app_or in Hin. destruct Hin as [Hin|Hin].
      + destruct (select_attributes_only_attributes _ _ _ _ Ha c Hin)
          as [a' E].
        subst c. simpl in Hl. subst a'. tauto.
      + apply fixed_columns_labels in Hin.
        destruct Hin as [_ [Hin|[f [Ef Hin]]]].
        * rewrite Hl in Hin. tauto.
        * apply (Hagg f Ef). congruence. }
  split; [|split; [|split]].
  - intros stmt Hs. now apply Hfalse.
  - intros Hfixed Hagg.
    destruct (snd (get_vector real_text astype_native filters engine by_
                     variable time run module filter_ aggregate false))
      as [df|e] eqn:E; [|now exists e].
    exfalso. apply get_vector_ok in E.
    destruct E as [nby' [stmt [df0 [Hn' [Hs [Hr Hc]]]]]].
    rewrite Hn in Hn'. inversion Hn'; subst nby'.
    destruct (Hfalse stmt Hs) as [_ Hno].
    apply (Hno Hfixed Hagg).
    rewrite <- (read_sql_columns _ _ _ _ Hr).
    apply (cast_attributes_present _ _ _ _ a Hc).
    now apply dict_getitem_In_keys with (v := vals).
  - exact Htrue.
  - intros df Hdf. apply get_vector_columns in Hdf.
    destruct Hdf as [nby' [stmt [Hn' [Hs Hc]]]].
    rewrite Hn in Hn'. inversion Hn'; subst nby'.
    rewrite Hc. change a with (label (AttrValue a)). apply in_map.
    now apply Htrue.
Qed.

(** ** The categories of a filtered attribute *)

(** The number of columns of a name is that of its occurrences among the
    names of the columns. *)
Lemma columns_count (df : dataframe) (key : string) :
  List.length (filter (fun s => String.eqb (s_name s) key) df)
  = List.length (filter (fun n => String.eqb n key) (columns df)).
Proof.
  induction df as [|s df IH]; [reflexivity|]. simpl.
  destruct (String.eqb (s_name s) key); simpl; now rewrite IH.
Qed.

Lemma filter_none {A : Type} (f : A -> bool) (l : list A) :
  (forall x, In x l -> f x = false) -> filter f l = [].
Proof.
  induction l as [|x l IH]; intros H; [reflexivity|]. simpl.
  rewrite (H x) by now left. apply IH. intros y Hy. apply H. now right.
Qed.

Lemma nodup_count (l : list string) (key : string) :
  NoDup l ->
  (List.length (filter (fun n => String.eqb n key) l) <= 1)%nat.
Proof.
  induction 1 as [|x l Hx Hnd IH]; simpl; [lia|].
  destruct (String.eqb x key) eqn:E; [|exact IH].
  apply String.eqb_eq in E. subst x.
  rewrite filter_none; [simpl; lia|].
  intros y Hy. apply String.eqb_neq. intros ->. contradiction.
Qed.

Lemma kept_attributes_nodup (by_ : dict (list pyval)) (sd : bool) :
  NoDup (keys by_) -> NoDup (kept_attributes by_ sd).
Proof.
  unfold kept_attributes, keys.
  induction by_ as [|[k v] d IH]; simpl; intros H; [constructor|].
  inversion H as [|? ? Hk Hd]; subst.
  destruct (negb (Nat.eqb (List.length v) 1 && negb sd)); [|now apply IH].
  simpl. constructor; [|now apply IH].
  intros C. apply Hk. apply in_map_iff in C. destruct C as [[k' v'] [E C]].
  apply filter_In in C. destruct C as [C _]. simpl in E. subst k'.
  apply in_map_iff. now exists (k, v').
Qed.

Lemma fixed_columns_In (time module vector_name : bool)
    (aggregate : option aggregate_fn) (x : string) :
  In x (fixed_columns time module vector_name aggregate) ->
  In x ["simtime"; "moduleName"; "vectorName"; "value"]
  \/ exists f, aggregate = Some f /\ x = agg_name f ++ "_1".
Proof.
  unfold fixed_columns. intros H.
  repeat (apply in_app_or in H; destruct H as [H|H]).
  - destruct time; [|destruct H]. destruct H as [<-|[]]. left. simpl. tauto.
  - destruct module; [|destruct H]. destruct H as [<-|[]].
    left. simpl. tauto.
  - destruct vector_name; [|destruct H]. destruct H as [<-|[]].
    left. simpl. tauto.
  - destruct H as [<-|[]]. destruct aggregate as [f|].
    + right. now exists f.
    + left. simpl. tauto.
Qed.

(** C7: the category-order law and its failure on unconstrained
    attributes.  When the call returns a frame, the column of every
    attribute whose filter list starts with a string is there and has the
    ordered categorical type whose categories are that list in the caller's
    order, provided the attribute does not bear the name of one of the
    fixed columns (two columns of one name do not keep the categorical
    type).  But a call whose grouping has an attribute with an empty filter
    list returns no frame at all: the loop raises at [vals[0]] if nothing
    raised before. *)
Theorem get_vector_categorical_cast (filters : list warning_filter)
    (engine : database) (by_ variable : pyval) (time run module : bool)
    (filter_ : option (joined_row -> bool))
    (aggregate : option aggregate_fn) (sd : bool)
    (nby : dict (list pyval)) (a : string) :
  normalize_by by_ = Ok nby ->
  (forall first rest df,
      In (a, PStr first :: rest) nby ->
      ~ In a ["simtime"; "moduleName"; "vectorName"; "value"] ->
      (forall f, aggregate = Some f -> a <> agg_name f ++ "_1") ->
      snd (get_vector real_text astype_native filters engine by_ variable
             time run module filter_ aggregate sd) = Ok df ->
      In a (columns df)
      /\ forall s, In s df -> s_name s = a ->
                   s_dtype s = Categorical (PStr first :: rest) true)
  /\ (In (a, []) nby ->
      exists e,
        snd (get_vector real_text astype_native filters engine by_ variable
               time run module filter_ aggregate sd) = Raise e).
Proof.
  intros Hn. pose proof (normalize_by_nodup _ _ Hn) as Hnd. split.
  - intros first rest df Hin Hfixed Hagg Hdf.
    apply get_vector_ok in Hdf.
    destruct Hdf as [nby' [stmt [df0 [Hn' [Hs [Hr Hc]]]]]].
    rewrite Hn in Hn'. inversion Hn'; subst nby'. split.
    + rewrite (cast_attributes_columns _ _ _ _ Hc).
      apply (cast_attributes_present _ _ _ _ a Hc).
      change a with (fst (a, PStr first :: rest)). now apply in_map.
    + intros s Hs' Hname.
      destruct (cast_attributes_source astype_native nby df0 df a
                  (PStr first) rest Hnd Hin Hc s Hs' Hname)
        as [s0 [dt [c [_ [_ [Hdt [_ ->]]]]]]].
      simpl in Hdt. unfold CategoricalDtype in Hdt.
      destruct (py_unique (PStr first :: rest)); [|discriminate].
      inversion Hdt; subst dt; clear Hdt.
      cbn [with_dtype s_dtype]. unfold stored_dtype.
      rewrite columns_count, (read_sql_columns _ _ _ _ Hr).
      destruct (statement_labels _ _ _ _ _ _ _ _ Hnd Hs) as [n [_ [_ Hl]]].
      rewrite Hl, filter_app, length_app.
      rewrite (filter_none (fun n0 => String.eqb n0 a)
                 (fixed_columns time module _ aggregate)).
      * pose proof (nodup_count _ a (kept_attributes_nodup nby sd Hnd)) as Hk.
        simpl List.length. rewrite Nat.add_0_r.
        destruct (Nat.ltb_spec 1 (List.length
                    (filter (fun n0 => String.eqb n0 a)
                            (kept_attributes nby sd)))); [lia | reflexivity].
      * intros x Hx. apply String.eqb_neq. intros ->.
        apply fixed_columns_In in Hx. destruct Hx as [Hx|[f [Ef Hx]]].
        -- contradiction.
        -- now apply (Hagg f Ef).
  - intros Hin. unfold get_vector. cbn [snd]. rewrite Hn. cbn [bind].
    destruct (get_vector_statement nby (normalize_variable variable) time
                module filter_ aggregate sd) as [stmt|e]; cbn [bind];
      [|now eexists].
    destruct (read_sql real_text stmt engine) as [df0|e]; cbn [bind];
      [|now eexists].
    now apply cast_attributes_unconstrained with (a := a).
Qed.

End Elision.


Lemma get_vector_attribute_elision_witness :
  (exists e,
      snd (example_get_vector [] example_store
             (PDict [(PStr "nCars", PStr "320");
                     (PStr "repetition", PList [PStr "0"; PStr "1"])])
             (PStr "collisions") false false false None None false)
      = Raise e)
  /\ (exists df,
         snd (example_get_vector [] example_store
                (PDict [(PStr "nCars", PStr "320");
                        (PStr "repetition", PList [PStr "0"; PStr "1"])])
                (PStr "collisions") false false false None None true)
         = Ok df
         /\ In "nCars" (columns df)).
Proof.
  destruct (get_vector_attribute_elision example_real_text
              example_astype_native) as [H _].
  destruct (H [] example_store
              (PDict [(PStr "nCars", PStr "320");
                      (PStr "repetition", PList [PStr "0"; PStr "1"])])
              (PStr "collisions") false false false None None
              [("nCars", [PStr "320"]); ("repetition", [PStr "0"; PStr "1"])]
              "nCars" [PStr "320"] eq_refl eq_refl eq_refl)
    as [_ [Hfalse [_ Htrue]]].
  split.
  - apply Hfalse.
    + simpl. intros [C|[C|[C|[C|[]]]]]; discriminate C.
    + intros f C. discriminate C.
  - eexists. split; [reflexivity|]. apply Htrue. reflexivity.
Defined.

Lemma get_vector_categorical_cast_witness :
  (exists df,
      snd (example_get_vector [] example_store
             (PDict [(PStr "nCars", PList [PStr "320"; PStr "160"])])
             (PStr "collisions") false false false None None false) = Ok df
      /\ In "nCars" (columns df)
      /\ forall s, In s df -> s_name s = "nCars" ->
                   s_dtype s = Categorical [PStr "320"; PStr "160"] true)
  /\ exists e,
       snd (example_get_vector [] example_store
              (PDict [(PStr "nCars", PNone)])
              (PStr "collisions") false false false None None false)
       = Raise e.
Proof.
  split.
  - destruct (get_vector_categorical_cast example_real_text
                example_astype_native [] example_store
                (PDict [(PStr "nCars", PList [PStr "320"; PStr "160"])])
                (PStr "collisions") false false false None None false
                [("nCars", [PStr "320"; PStr "160"])] "nCars" eq_refl)
      as [H _].
    eexists. split; [reflexivity|].
    apply (H "320" [PStr "160"]).
    + left; reflexivity.
    + simpl. intros [C|[C|[C|[C|[]]]]]; discriminate C.
    + intros f C. discriminate C.
    + reflexivity.
  - destruct (get_vector_categorical_cast example_real_text
                example_astype_native [] example_store
                (PDict [(PStr "nCars", PNone)])
                (PStr "collisions") false false false None None false
                [("nCars", [])] "nCars" eq_refl)
      as [_ H].
    apply H. left. reflexivity.
Defined.
